(** * get-tag: resolving the latest upstream version and deciding its novelty

    A shallow embedding of [get_tag.py].  The script asks one upstream
    (PyPI, npm, the Go proxy, GitHub, GitLab or the wall clock) for the
    latest version identifier and prints [tag=<identifier>] when that
    identifier is not among the tags already published on Docker Hub.

    Python values are embedded as follows.
    - [str] is [string]; a character is one code point below 256.
    - The value [json.loads] yields is a [json] tree.  JSON numbers are
      integers ([JInt]); a [dict] is an association list in insertion
      order.
    - Everything that touches the outside (HTTP requests, [time.sleep],
      the two output streams, the clock) lives in a reader/state/error
      monad [M]: the environment [env] answers requests and tells the
      time, the state is the chronological [trace] of events, and a
      computation ends in a value or in a raised exception. *)

From Stdlib Require Import ZArith List String Ascii Bool Lia.
From Stdlib Require Import DecimalString Permutation Sorted.
From Stdlib Require OrderedTypeEx.
Import ListNotations.

Set Warnings "-register-all".

Local Open Scope Z_scope.
Local Open Scope list_scope.

Infix "+++" := String.append (right associativity, at level 60).

(** ** Python values *)

Inductive json : Type :=
| JNull
| JBool (b : bool)
| JInt (z : Z)
| JStr (s : string)
| JArr (items : list json)
| JObj (fields : list (string * json)).

(** The exceptions the script can meet.  All of them derive from
    [Exception], so [except Exception] catches each one. *)
Inductive exn : Type :=
| AssertionError
| URLError
| HTTPError (code : Z)
| JSONDecodeError
| KeyError
| IndexError
| TypeError
| ValueError
| NotImplementedError.

Inductive result (A : Type) : Type :=
| Ok (a : A)
| Raise (e : exn).
Arguments Ok {A} a.
Arguments Raise {A} e.

(** ** The outside world *)

(** What [urllib.request.urlopen] hands back: [status] and the body, the
    latter represented by what [json.loads(response.read())] yields, and
    [None] when that call raises.  The embedding names the exception of
    [None] [JSONDecodeError]; Python raises [UnicodeDecodeError] instead
    on a body that is not UTF-8, and a transport error when [read]
    itself fails.  The three are raised at the same place, outside the
    [try] of [_urlopen], and the embedding does not tell them apart. *)
Record response : Type := mkResponse {
  status : Z;
  body : option json
}.

Inductive http_outcome : Type :=
| Failed (e : exn)
| Responded (r : response).

Inductive event : Type :=
| EvRequest (url : string)
| EvSleep (seconds : Z)
| EvStderr (label : string) (value : json)
| EvStdout (line : string).

Definition trace : Type := list event.

(** [net n url] is the outcome of a GET of [url] issued when [n] requests
    have been made before it; [strftime_now fmt] is
    [datetime.datetime.now(datetime.UTC).strftime(fmt)]. *)
Record env : Type := mkEnv {
  net : nat -> string -> http_outcome;
  strftime_now : string -> string
}.

Definition is_request (ev : event) : bool :=
  match ev with EvRequest _ => true | _ => false end.

Definition requests (t : trace) : list event := filter is_request t.

Definition requests_made (t : trace) : nat := List.length (requests t).

Fixpoint sleeps (t : trace) : list Z :=
  match t with
  | [] => []
  | EvSleep s :: t' => s :: sleeps t'
  | _ :: t' => sleeps t'
  end.

Fixpoint stdout (t : trace) : list string :=
  match t with
  | [] => []
  | EvStdout l :: t' => l :: stdout t'
  | _ :: t' => stdout t'
  end.

(** ** The monad *)

Definition M (A : Type) : Type := env -> trace -> result A * trace.

Definition ret {A} (a : A) : M A := fun _ t => (Ok a, t).

Definition raise {A} (e : exn) : M A := fun _ t => (Raise e, t).

Definition bind {A B} (m : M A) (k : A -> M B) : M B :=
  fun w t =>
    match m w t with
    | (Ok a, t') => k a w t'
    | (Raise e, t') => (Raise e, t')
    end.

Notation "x <- m ;; k" := (bind m (fun x => k))
  (at level 100, m at next level, right associativity).
Notation "m ;;; k" := (bind m (fun _ => k))
  (at level 100, right associativity).

(** [try: m except Exception: h]. *)
Definition try_except {A} (m : M A) (h : exn -> M A) : M A :=
  fun w t =>
    match m w t with
    | (Ok a, t') => (Ok a, t')
    | (Raise e, t') => h e w t'
    end.

Definition lift {A} (r : result A) : M A := fun _ t => (r, t).

Definition emit (ev : event) : M unit := fun _ t => (Ok tt, t ++ [ev]).

Definition urlopen (url : string) : M response :=
  fun w t =>
    match net w (requests_made t) url with
    | Failed e => (Raise e, t ++ [EvRequest url])
    | Responded r => (Ok r, t ++ [EvRequest url])
    end.

Definition time_sleep (seconds : Z) : M unit := emit (EvSleep seconds).

(** [print(f"{label=}", file=sys.stderr)]: the record keeps the label and
    the value. *)
Definition print_stderr (label : string) (value : json) : M unit :=
  emit (EvStderr label value).

Definition print_stdout (line : string) : M unit := emit (EvStdout line).

Definition py_assert (b : bool) : M unit :=
  if b then ret tt else raise AssertionError.

Definition now_strftime (fmt : string) : M string :=
  fun w t => (Ok (strftime_now w fmt), t).

(** ** Resilient fetcher *)

Definition _RETRIES : nat := 3.

(** [_urlopen(url, __retries)]; callers outside pass the default
    [_RETRIES]. *)
Fixpoint _urlopen (url : string) (__retries : nat) : M response :=
  (if Nat.eqb _RETRIES __retries
   then print_stderr "url" (JStr url) else ret tt) ;;;
  try_except
    (response <- urlopen url ;;
     py_assert (200 =? status response) ;;;
     ret response)
    (fun ex =>
       match __retries with
       | O => raise ex
       | S retries' =>
           let sleep := 30 * (Z.of_nat _RETRIES - Z.of_nat __retries + 1) in
           print_stderr "sleep" (JInt sleep) ;;;
           time_sleep sleep ;;;
           _urlopen url retries'
       end).

(** ** Pure Python operations *)

Definition rbind {A B} (r : result A) (k : A -> result B) : result B :=
  match r with
  | Ok a => k a
  | Raise e => Raise e
  end.

Notation "x <~ r ;; k" := (rbind r (fun x => k))
  (at level 100, r at next level, right associativity).

(** [[f(x) for x in l]], stopping at the first exception. *)
Fixpoint mapR {A B} (f : A -> result B) (l : list A) : result (list B) :=
  match l with
  | [] => Ok []
  | x :: l' => y <~ f x ;; ys <~ mapR f l' ;; Ok (y :: ys)
  end.

(** [[x for x in l if p(x)]]. *)
Fixpoint filterR {A} (p : A -> result bool) (l : list A) : result (list A) :=
  match l with
  | [] => Ok []
  | x :: l' =>
      b <~ p x ;; xs <~ filterR p l' ;; Ok (if b then x :: xs else xs)
  end.

(** [[f(x) for x in l if p(x)]]: the condition is evaluated first, the
    element expression only when it holds. *)
Fixpoint comprehension {A B} (p : A -> result bool) (f : A -> result B)
    (l : list A) : result (list B) :=
  match l with
  | [] => Ok []
  | x :: l' =>
      b <~ p x ;;
      if b then y <~ f x ;; ys <~ comprehension p f l' ;; Ok (y :: ys)
      else comprehension p f l'
  end.

(** [l[i]] on a sequence: negative indices count from the end. *)
Definition py_index {A} (l : list A) (i : Z) : result A :=
  let n := Z.of_nat (List.length l) in
  let j := if i <? 0 then i + n else i in
  if (j <? 0) || (n <=? j) then Raise IndexError
  else match nth_error l (Z.to_nat j) with
       | Some x => Ok x
       | None => Raise IndexError
       end.

Fixpoint lookup {V} (k : string) (m : list (string * V)) : option V :=
  match m with
  | [] => None
  | (k', v) :: m' => if String.eqb k k' then Some v else lookup k m'
  end.

Definition keys (m : list (string * json)) : list json :=
  map (fun kv => JStr (fst kv)) m.

(** The characters of a [str] as one-character strings. *)
Definition chars (s : string) : list json :=
  map (fun c => JStr (String c EmptyString)) (list_ascii_of_string s).

Definition int_of_bool (b : bool) : Z := if b then 1 else 0.

(** [c[k]].  A [dict] raises [KeyError] on a missing hashable key and
    [TypeError] on an unhashable one; [bool] is an [int] when it indexes
    a sequence. *)
Definition py_getitem (c k : json) : result json :=
  match c, k with
  | JObj m, JStr s =>
      match lookup s m with Some v => Ok v | None => Raise KeyError end
  | JObj _, (JNull | JBool _ | JInt _) => Raise KeyError
  | JObj _, (JArr _ | JObj _) => Raise TypeError
  | JArr l, JInt i => py_index l i
  | JArr l, JBool b => py_index l (int_of_bool b)
  | JStr s, JInt i => py_index (chars s) i
  | JStr s, JBool b => py_index (chars s) (int_of_bool b)
  | _, _ => Raise TypeError
  end.

(** Truth value of an object. *)
Definition truthy (j : json) : bool :=
  match j with
  | JNull => false
  | JBool b => b
  | JInt z => negb (z =? 0)
  | JStr s => negb (String.eqb s "")
  | JArr l => match l with [] => false | _ => true end
  | JObj m => match m with [] => false | _ => true end
  end.

(** [iter(j)]: a list gives its items, a dict its keys, a string its
    characters. *)
Definition py_iter (j : json) : result (list json) :=
  match j with
  | JArr l => Ok l
  | JObj m => Ok (keys m)
  | JStr s => Ok (chars s)
  | _ => Raise TypeError
  end.

(** [reversed(j)]. *)
Definition py_reversed (j : json) : result (list json) :=
  match j with
  | JArr l => Ok (rev l)
  | JObj m => Ok (rev (keys m))
  | JStr s => Ok (rev (chars s))
  | _ => Raise TypeError
  end.

(** [a == b].  [True == 1]; two dicts are equal when they hold the same
    keys with equal values, whatever the order. *)
Fixpoint py_eq (a b : json) {struct a} : bool :=
  match a, b with
  | JNull, JNull => true
  | JBool x, JBool y => Bool.eqb x y
  | JBool x, JInt y => int_of_bool x =? y
  | JInt x, JBool y => x =? int_of_bool y
  | JInt x, JInt y => x =? y
  | JStr x, JStr y => String.eqb x y
  | JArr xs, JArr ys =>
      (fix eq_items (xs ys : list json) {struct xs} : bool :=
         match xs, ys with
         | [], [] => true
         | x :: xs', y :: ys' => py_eq x y && eq_items xs' ys'
         | _, _ => false
         end) xs ys
  | JObj xs, JObj ys =>
      Nat.eqb (List.length xs) (List.length ys) &&
      (fix eq_fields (xs : list (string * json)) {struct xs} : bool :=
         match xs with
         | [] => true
         | (k, x) :: xs' =>
             match lookup k ys with
             | Some y => py_eq x y
             | None => false
             end && eq_fields xs'
         end) xs
  | _, _ => false
  end.

(** [x in l] for a list [l]. *)
Definition py_in (x : json) (l : list json) : bool := existsb (py_eq x) l.

(** [a < b]: numbers by value, strings by code point, lists
    lexicographically; anything else is a [TypeError]. *)
Fixpoint py_lt (a b : json) {struct a} : result bool :=
  match a, b with
  | JBool x, JBool y => Ok (int_of_bool x <? int_of_bool y)
  | JBool x, JInt y => Ok (int_of_bool x <? y)
  | JInt x, JBool y => Ok (x <? int_of_bool y)
  | JInt x, JInt y => Ok (x <? y)
  | JStr x, JStr y => Ok (String.ltb x y)
  | JArr xs, JArr ys =>
      (fix lt_items (xs ys : list json) {struct xs} : result bool :=
         match xs, ys with
         | [], [] => Ok false
         | [], _ :: _ => Ok true
         | _ :: _, [] => Ok false
         | x :: xs', y :: ys' =>
             if py_eq x y then lt_items xs' ys' else py_lt x y
         end) xs ys
  | _, _ => Raise TypeError
  end.

(** [sorted(l, key=...)] on a list of (key, item) pairs: a stable
    insertion sort that asks [y < x] only.  When the keys are pairwise
    comparable the outcome is the one stable ordering, whichever
    algorithm computes it. *)
Fixpoint insert_by_key (x : json * json) (l : list (json * json))
    : result (list (json * json)) :=
  match l with
  | [] => Ok [x]
  | y :: l' =>
      b <~ py_lt (fst y) (fst x) ;;
      if b then l'' <~ insert_by_key x l' ;; Ok (y :: l'')
      else Ok (x :: y :: l')
  end.

Fixpoint sort_by_key (l : list (json * json)) : result (list (json * json)) :=
  match l with
  | [] => Ok []
  | x :: l' => s <~ sort_by_key l' ;; insert_by_key x s
  end.

(** [sorted(l, key=key)]: the keys are computed first, one per item. *)
Definition py_sorted (key : json -> result json) (l : list json)
    : result (list json) :=
  keyed <~ mapR (fun x => k <~ key x ;; Ok (k, x)) l ;;
  s <~ sort_by_key keyed ;;
  Ok (map snd s).

Definition json_loads (b : option json) : result json :=
  match b with
  | Some j => Ok j
  | None => Raise JSONDecodeError
  end.

(** ** Strings *)

Fixpoint contains_char (c : ascii) (s : string) : bool :=
  match s with
  | EmptyString => false
  | String c' s' => Ascii.eqb c' c || contains_char c s'
  end.

(** [s.count(c)] for a one-character [c]. *)
Fixpoint count_char (c : ascii) (s : string) : nat :=
  match s with
  | EmptyString => O
  | String c' s' =>
      if Ascii.eqb c' c then S (count_char c s') else count_char c s'
  end.

(** [s.split(sep, maxsplit)] for a one-character [sep]: at most
    [maxsplit] cuts, taken from the left. *)
Fixpoint split_char (sep : ascii) (s : string) (maxsplit : nat) {struct s}
    : list string :=
  match s with
  | EmptyString => [EmptyString]
  | String c s' =>
      match maxsplit with
      | O => [s]
      | S n' =>
          if Ascii.eqb c sep then EmptyString :: split_char sep s' n'
          else match split_char sep s' maxsplit with
               | [] => [String c EmptyString]
               | h :: tl => String c h :: tl
               end
      end
  end.

(** [s.replace(c, by)] for a one-character [c]. *)
Fixpoint replace_char (c : ascii) (by_ : string) (s : string) : string :=
  match s with
  | EmptyString => EmptyString
  | String c' s' =>
      if Ascii.eqb c' c then by_ +++ replace_char c by_ s'
      else String c' (replace_char c by_ s')
  end.

Definition is_ascii_digit (c : ascii) : bool :=
  let n := N_of_ascii c in (48 <=? n)%N && (n <=? 57)%N.

(** Below 256, [str.isdigit] also accepts the superscripts U+00B2,
    U+00B3 and U+00B9, which [int] rejects. *)
Definition is_digit (c : ascii) : bool :=
  let n := N_of_ascii c in
  is_ascii_digit c || (n =? 178)%N || (n =? 179)%N || (n =? 185)%N.

Fixpoint all_chars (p : ascii -> bool) (s : string) : bool :=
  match s with
  | EmptyString => true
  | String c s' => p c && all_chars p s'
  end.

Definition isdigit (s : string) : bool :=
  negb (String.eqb s "") && all_chars is_digit s.

Fixpoint digits_value (acc : Z) (s : string) : Z :=
  match s with
  | EmptyString => acc
  | String c s' => digits_value (10 * acc + (Z.of_N (N_of_ascii c) - 48)) s'
  end.

(** The default of [sys.int_max_str_digits]: [int] refuses a decimal
    string with more digits, leading zeros included. *)
Definition int_max_str_digits : nat := 4300.

(** [int(s)] on a string that passed [isdigit]: a [ValueError] for a
    digit that is not ASCII and for more than [int_max_str_digits]
    digits. *)
Definition py_int (s : string) : result Z :=
  if all_chars is_ascii_digit s && negb (String.eqb s "")
  then if Nat.ltb int_max_str_digits (String.length s)
       then Raise ValueError
       else Ok (digits_value 0 s)
  else Raise ValueError.

(** [a, b = t]. *)
Definition unpack2 (t : list string) : result (string * string) :=
  match t with
  | [a; b] => Ok (a, b)
  | _ => Raise ValueError
  end.

(** [a, b, c = t]. *)
Definition unpack3 (t : list string) : result (string * string * string) :=
  match t with
  | [a; b; c] => Ok (a, b, c)
  | _ => Raise ValueError
  end.

(** ** Repository references *)

Definition _SEP_BRANCH : ascii := ":"%char.
Definition _SEP_BASE : ascii := "@"%char.
Definition _DEFAULT_BRANCH : string := "".
Definition _DEFAULT_GH_BASE : string := "https://api.github.com".
Definition _DEFAULT_GL_BASE : string := "https://gitlab.com".

Definition _CR_COICES : list (string * string) :=
  let choices :=
    [ ("hourly", "%Y-%m-%dT%H");
      ("daily", "%Y-%m-%d");
      ("weekly", "%Y-W%V");
      ("monthly", "%Y-%m");
      ("yearly", "%Y") ]%string in
  match lookup "yearly" choices with
  | Some fmt => choices ++ [("annually"%string, fmt)]
  | None => choices
  end.

Definition _get_repository_base (repository default_base : string)
    : list string :=
  let repository :=
    if negb (contains_char _SEP_BASE repository)
    then repository +++ String _SEP_BASE default_base
    else repository in
  split_char _SEP_BASE repository 1.

Definition _get_repository_branch (repository : string) : list string :=
  let repository :=
    if negb (contains_char _SEP_BRANCH repository)
    then repository +++ String _SEP_BRANCH _DEFAULT_BRANCH
    else repository in
  split_char _SEP_BRANCH repository 1.

Definition _get_repository_path (repository : string)
    : result (string * string) :=
  let repository :=
    if Nat.eqb 1 (count_char "/" repository)
    then repository +++ "/"
    else repository in
  parts <~ unpack3 (split_char "/" repository 2) ;;
  let '(owner, repository, path) := parts in
  Ok (owner +++ "/" +++ repository, path).

Definition _get_gh_repository_base (repository : string) : list string :=
  _get_repository_base repository _DEFAULT_GH_BASE.

Definition _get_gl_repository_base (repository : string) : list string :=
  _get_repository_base repository _DEFAULT_GL_BASE.

(** ** Version providers *)

Notation "' pat <- m ;; k" :=
  (bind m (fun x => match x with pat => k end))
  (at level 100, pat pattern, m at next level, right associativity).

(** [json.loads(response.read())]; see [response] for the exception of
    a body that does not decode. *)
Definition read_json (r : response) : M json := lift (json_loads (body r)).

Definition get_pip_versions_2 (package : string) : M (list json) :=
  let url := "https://pypi.org/pypi/" +++ package +++ "/json" in
  response <- _urlopen url _RETRIES ;;
  data <- read_json response ;;
  releases <- lift (py_getitem data (JStr "releases")) ;;
  candidates <- lift (py_iter releases) ;;
  versions <- lift (filterR
    (fun release =>
       release <~ py_getitem releases release ;;
       if truthy release then
         first <~ py_getitem release (JInt 0) ;;
         yanked <~ py_getitem first (JStr "yanked") ;;
         Ok (negb (truthy yanked))
       else Ok false)
    candidates) ;;
  lift (py_sorted
    (fun release =>
       files <~ py_getitem releases release ;;
       first <~ py_getitem files (JInt 0) ;;
       py_getitem first (JStr "upload_time_iso_8601"))
    versions).

Definition get_pip_versions (package : string) : M (list json) :=
  get_pip_versions_2 package.

Definition get_pip_version_2 (package : string) : M json :=
  versions <- get_pip_versions_2 package ;;
  lift (py_index versions (-1)).

Definition get_pip_version (package : string) : M json :=
  get_pip_version_2 package.

Definition get_npm_version_1 (package : string) : M json :=
  let url := "https://registry.npmjs.org/" +++ package in
  response <- _urlopen url _RETRIES ;;
  data <- read_json response ;;
  lift (tags <~ py_getitem data (JStr "dist-tags") ;;
        py_getitem tags (JStr "latest")).

Definition get_npm_version (package : string) : M json :=
  get_npm_version_1 package.

Definition get_go_version_1 (module : string) : M json :=
  let url := "https://proxy.golang.org/" +++ module +++ "/@latest" in
  response <- _urlopen url _RETRIES ;;
  data <- read_json response ;;
  lift (py_getitem data (JStr "Version")).

Definition get_go_version (module : string) : M json :=
  get_go_version_1 module.

(** [[result[field] for result in reversed(json.loads(response.read()))]]. *)
Definition reversed_fields (field : string) (response : response)
    : M (list json) :=
  data <- read_json response ;;
  lift (results <~ py_reversed data ;;
        mapR (fun result => py_getitem result (JStr field)) results).

Definition get_gh_commits (repository : string) : M (list json) :=
  '(repository, base) <- lift (unpack2 (_get_gh_repository_base repository)) ;;
  '(repository, branch) <- lift (unpack2 (_get_repository_branch repository)) ;;
  '(repository, path) <- lift (_get_repository_path repository) ;;
  let url := base +++ "/repos/" +++ repository +++ "/commits?sha=" +++ branch
                  +++ "&path=" +++ path in
  response <- _urlopen url _RETRIES ;;
  reversed_fields "sha" response.

Definition get_gh_commit (repository : string) : M json :=
  commits <- get_gh_commits repository ;;
  lift (py_index commits (-1)).

Definition get_gh_tags (repository : string) : M (list json) :=
  '(repository, base) <- lift (unpack2 (_get_gh_repository_base repository)) ;;
  let url := base +++ "/repos/" +++ repository +++ "/tags" in
  response <- _urlopen url _RETRIES ;;
  reversed_fields "name" response.

Definition get_gh_tag (repository : string) : M json :=
  tags <- get_gh_tags repository ;;
  lift (py_index tags (-1)).

Definition get_gh_releases_1 (repository : string) : M (list json) :=
  '(repository, base) <- lift (unpack2 (_get_gh_repository_base repository)) ;;
  let url := base +++ "/repos/" +++ repository +++ "/releases" in
  response <- _urlopen url _RETRIES ;;
  data <- read_json response ;;
  lift (results <~ py_reversed data ;;
        comprehension
          (fun result =>
             draft <~ py_getitem result (JStr "draft") ;;
             if negb (truthy draft) then
               prerelease <~ py_getitem result (JStr "prerelease") ;;
               Ok (negb (truthy prerelease))
             else Ok false)
          (fun result => py_getitem result (JStr "tag_name"))
          results).

Definition get_gh_release_1 (repository : string) : M json :=
  releases <- get_gh_releases_1 repository ;;
  lift (py_index releases (-1)).

Definition get_gh_release_2 (repository : string) : M json :=
  '(repository, base) <- lift (unpack2 (_get_gh_repository_base repository)) ;;
  let url := base +++ "/repos/" +++ repository +++ "/releases/latest" in
  response <- _urlopen url _RETRIES ;;
  data <- read_json response ;;
  lift (py_getitem data (JStr "tag_name")).

Definition get_gh_release (repository : string) : M json :=
  get_gh_release_2 repository.

Definition get_gh_deployments (repository : string) : M (list json) :=
  '(repository, base) <- lift (unpack2 (_get_gh_repository_base repository)) ;;
  let url := base +++ "/repos/" +++ repository +++ "/deployments" in
  response <- _urlopen url _RETRIES ;;
  reversed_fields "sha" response.

Definition get_gh_deployment (repository : string) : M json :=
  deployments <- get_gh_deployments repository ;;
  lift (py_index deployments (-1)).

Definition get_cron_tag (cron : string) : M json :=
  match lookup cron _CR_COICES with
  | Some fmt => s <- now_strftime fmt ;; ret (JStr s)
  | None => raise KeyError
  end.

(** ** Published tags *)

Definition get_docker_tags (repository : string) : M (list json) :=
  if String.eqb repository "" then ret []
  else
    let url := "https://hub.docker.com/v2/repositories/" +++ repository
                 +++ "/tags" in
    response <- _urlopen url _RETRIES ;;
    data <- read_json response ;;
    lift (results <~ py_getitem data (JStr "results") ;;
          results <~ py_iter results ;;
          mapR (fun result => py_getitem result (JStr "name")) results).

(** ** Selector *)

(** The namespace [parse_args] returns: the positional [docker_tag] and
    one optional string per provider flag, from the command line or from
    its [TAG_...] environment default.  [parse_args] itself is
    [argparse]'s: its usage errors (two flags of the group on the command
    line, a [--cr] value outside [choices]), [--help] and the
    [SystemExit] they end in happen before the namespace exists and are
    not embedded.  Defaults are not checked by [parse_args], so a
    namespace can hold several flags and any [cr] string. *)
Record args : Type := mkArgs {
  docker_tag : string;
  pip : option string;
  npm : option string;
  go : option string;
  gh_commit : option string;
  gh_tag : option string;
  gh_release : option string;
  gh_deployment : option string;
  gl_commit : option string;
  gl_tag : option string;
  cr : option string
}.

(** [if args.flag:] holds for a non-empty string. *)
Definition selected (flag : option string) : option string :=
  match flag with
  | Some s => if String.eqb s "" then None else Some s
  | None => None
  end.

Notation "'if_flag' flag 'as' x 'then' a 'else' b" :=
  (match selected flag with Some x => a | None => b end)
  (at level 10, flag at level 10, x name, a at level 200, b at level 200).

Section Rendering.

(** [str] of a list or a dict, which the script never needs on a
    well-typed response. *)
Variable str_container : json -> string.

(** [str(j)], as an f-string substitutes it.  [str] refuses an [int] of
    more than [int_max_str_digits] digits, which no value in play
    reaches: [py_int] and [json.loads] refuse such a number first. *)
Definition py_str (j : json) : string :=
  match j with
  | JNull => "None"
  | JBool true => "True"
  | JBool false => "False"
  | JInt z => NilZero.string_of_int (Z.to_int z)
  | JStr s => s
  | JArr _ | JObj _ => str_container j
  end.

Definition _get_gl_repository (repository base : string) : M json :=
  if isdigit repository then
    n <- lift (py_int repository) ;; ret (JInt n)
  else
    let url := base +++ "/api/v4/projects/"
                    +++ replace_char "/" "%2F" repository in
    response <- _urlopen url _RETRIES ;;
    data <- read_json response ;;
    lift (py_getitem data (JStr "id")).

Definition get_gl_commits (repository : string) : M (list json) :=
  '(repository, base) <- lift (unpack2 (_get_gl_repository_base repository)) ;;
  '(repository, branch) <- lift (unpack2 (_get_repository_branch repository)) ;;
  project <- _get_gl_repository repository base ;;
  let url := base +++ "/api/v4/projects/" +++ py_str project
                  +++ "/repository/commits?ref_name=" +++ branch in
  response <- _urlopen url _RETRIES ;;
  reversed_fields "id" response.

Definition get_gl_commit (repository : string) : M json :=
  commits <- get_gl_commits repository ;;
  lift (py_index commits (-1)).

Definition get_gl_tags (repository : string) : M (list json) :=
  '(repository, base) <- lift (unpack2 (_get_gl_repository_base repository)) ;;
  project <- _get_gl_repository repository base ;;
  let url := base +++ "/api/v4/projects/" +++ py_str project
                  +++ "/repository/tags?order_by=version" in
  response <- _urlopen url _RETRIES ;;
  reversed_fields "name" response.

Definition get_gl_tag (repository : string) : M json :=
  tags <- get_gl_tags repository ;;
  lift (py_index tags (-1)).

(** [main] from the point where [parse_args] has returned the namespace
    [a] (line 330 on): the tag listing, the [if]/[elif] chain, the
    print. *)
Definition main (a : args) : M unit :=
  tags <- get_docker_tags (docker_tag a) ;;
  tag <-
    (if_flag pip a as x then get_pip_version x else
     if_flag npm a as x then get_npm_version x else
     if_flag go a as x then get_go_version x else
     if_flag gh_commit a as x then get_gh_commit x else
     if_flag gh_tag a as x then get_gh_tag x else
     if_flag gh_release a as x then get_gh_release x else
     if_flag gh_deployment a as x then get_gh_deployment x else
     if_flag gl_commit a as x then get_gl_commit x else
     if_flag gl_tag a as x then get_gl_tag x else
     if_flag cr a as x then get_cron_tag x else
     raise NotImplementedError) ;;
  if negb (py_in tag tags) then print_stdout ("tag=" +++ py_str tag)
  else ret tt.

End Rendering.

(** * Specification vocabulary *)

(** The body of the [try] block: one request and the status check. *)
Definition attempt (url : string) : M response :=
  response <- urlopen url ;;
  py_assert (200 =? status response) ;;;
  ret response.

(** The pause [_urlopen] takes when it has [__retries] retries left. *)
Definition backoff (__retries : nat) : Z :=
  30 * (Z.of_nat _RETRIES - Z.of_nat __retries + 1).

(** An attempt fails when the request raises or the status is not 200. *)
Definition attempt_fails (o : http_outcome) : bool :=
  match o with
  | Failed _ => true
  | Responded r => negb (200 =? status r)
  end.

(** The exception a failed attempt leaves in the handler. *)
Definition failure_of (o : http_outcome) : exn :=
  match o with
  | Failed e => e
  | Responded _ => AssertionError
  end.

(** The diagnostic line of the first call. *)
Definition announced (url : string) (__retries : nat) (t : trace) : trace :=
  if Nat.eqb _RETRIES __retries then t ++ [EvStderr "url" (JStr url)] else t.

Definition quiet {A} (m : M A) : Prop :=
  forall w t, exists t', snd (m w t) = t ++ t' /\ stdout t' = [].

(** The provider the flags select, as [main] calls it. *)
Definition resolved_tag (str_container : json -> string) (a : args) : M json :=
  if_flag pip a as x then get_pip_version x else
  if_flag npm a as x then get_npm_version x else
  if_flag go a as x then get_go_version x else
  if_flag gh_commit a as x then get_gh_commit x else
  if_flag gh_tag a as x then get_gh_tag x else
  if_flag gh_release a as x then get_gh_release x else
  if_flag gh_deployment a as x then get_gh_deployment x else
  if_flag gl_commit a as x then get_gl_commit str_container x else
  if_flag gl_tag a as x then get_gl_tag str_container x else
  if_flag cr a as x then get_cron_tag x else
  raise NotImplementedError.

(** The tag-listing URL of an artifact repository. *)
Definition tags_url (repository : string) : string :=
  "https://hub.docker.com/v2/repositories/" +++ repository +++ "/tags".

(** The ["name"] fields of the entries of one response's ["results"], in
    response order. *)
Definition tag_names (r : response) : result (list json) :=
  data <~ json_loads (body r) ;;
  results <~ py_getitem data (JStr "results") ;;
  entries <~ py_iter results ;;
  mapR (fun result => py_getitem result (JStr "name")) entries.

(** No provider flag holds a non-empty string. *)
Definition no_provider (a : args) : bool :=
  forallb (fun flag => match selected flag with None => true | Some _ => false end)
    [pip a; npm a; go a; gh_commit a; gh_tag a; gh_release a;
     gh_deployment a; gl_commit a; gl_tag a; cr a].

(** What is left of a reference once the base and the branch are cut
    off: the part [get_gh_commits] hands to [_get_repository_path]. *)
Definition commits_target (repository : string) : string :=
  hd ""%string
     (_get_repository_branch
        (hd ""%string (_get_gh_repository_base repository))).

(** The next request, whatever its URL, is answered with [r]. *)
Definition answers_next (w : env) (t : trace) (r : response) : Prop :=
  forall url, net w (requests_made t) url = Responded r.

(** The condition of the comprehension in [get_gh_releases_1]:
    [not result["draft"] and not result["prerelease"]]. *)
Definition release_kept (entry : json) : result bool :=
  draft <~ py_getitem entry (JStr "draft") ;;
  if negb (truthy draft) then
    prerelease <~ py_getitem entry (JStr "prerelease") ;;
    Ok (negb (truthy prerelease))
  else Ok false.

Definition release_tag (entry : json) : result json :=
  py_getitem entry (JStr "tag_name").

(** The releases list as the specification words it: drafts and
    prereleases are filtered out of the response first, the tag names of
    what is left are taken, and the list is reversed last. *)
Definition releases_filtered_then_reversed (data : json)
    : result (list json) :=
  entries <~ py_iter data ;;
  kept <~ filterR release_kept entries ;;
  tags <~ mapR release_tag kept ;;
  Ok (rev tags).

(** The two lambdas of [get_pip_versions_2]. *)
Definition pip_keep (releases release : json) : result bool :=
  release <~ py_getitem releases release ;;
  if truthy release then
    first <~ py_getitem release (JInt 0) ;;
    yanked <~ py_getitem first (JStr "yanked") ;;
    Ok (negb (truthy yanked))
  else Ok false.

Definition pip_key (releases release : json) : result json :=
  files <~ py_getitem releases release ;;
  first <~ py_getitem files (JInt 0) ;;
  py_getitem first (JStr "upload_time_iso_8601").

(** What [get_pip_versions_2] makes of the decoded body. *)
Definition pip_versions_of (data : json) : result (list json) :=
  releases <~ py_getitem data (JStr "releases") ;;
  candidates <~ py_iter releases ;;
  versions <~ filterR (pip_keep releases) candidates ;;
  py_sorted (pip_key releases) versions.

Section VersionOrder.

(** The sort key of a version: its upload time. *)
Variable time_of : string -> string.

Definition uploaded_before (a b : string) : Prop :=
  String.leb (time_of a) (time_of b) = true.

(** The stable insertion sort on versions that [sort_by_key] performs on
    the encoded pairs. *)
Fixpoint insert_version (x : string) (l : list string) : list string :=
  match l with
  | [] => [x]
  | y :: l' =>
      if String.ltb (time_of y) (time_of x)
      then y :: insert_version x l'
      else x :: y :: l'
  end.

Fixpoint sort_versions (l : list string) : list string :=
  match l with
  | [] => []
  | x :: l' => insert_version x (sort_versions l')
  end.

(** A version with its sort key, as [py_sorted] pairs them. *)
Definition keyed (v : string) : json * json := (JStr (time_of v), JStr v).

End VersionOrder.

Section ReleaseTable.

(** The ["releases"] object: version to list of files. *)
Variable releases : list (string * json).

Definition release_files (v : string) : list json :=
  match lookup v releases with
  | Some (JArr files) => files
  | _ => []
  end.

Definition first_file (v : string) : list (string * json) :=
  match release_files v with
  | JObj file :: _ => file
  | _ => []
  end.

Definition has_files (v : string) : bool :=
  match release_files v with [] => false | _ :: _ => true end.

(** The yanked mark of a release, read on its first file. *)
Definition yanked (v : string) : bool :=
  match lookup "yanked" (first_file v) with
  | Some y => truthy y
  | None => false
  end.

Definition upload_time (v : string) : string :=
  match lookup "upload_time_iso_8601" (first_file v) with
  | Some (JStr ts) => ts
  | _ => ""
  end.

Definition listed (v : string) : bool := has_files v && negb (yanked v).

(** A release is a list of files; the first file, when there is one,
    carries a yanked mark and an ISO 8601 upload time. *)
Definition release_shape (val : json) : Prop :=
  match val with
  | JArr [] => True
  | JArr (JObj file :: _) =>
      (exists y, lookup "yanked" file = Some y) /\
      (exists ts, lookup "upload_time_iso_8601" file = Some (JStr ts))
  | _ => False
  end.

Definition release_table : Prop :=
  forall v val, lookup v releases = Some val -> release_shape val.

(** The versions the index lists, oldest upload first. *)
Definition listed_versions : list string :=
  sort_versions upload_time (filter listed (map fst releases)).

End ReleaseTable.

(** ** Vocabulary of the further properties *)

(** The retry counters [_urlopen] goes through when it starts with
    [__retries] retries left and [j] attempts fail. *)
Fixpoint retries_used (__retries j : nat) : list nat :=
  match j, __retries with
  | S j', S k' => S k' :: retries_used k' j'
  | _, _ => []
  end.

(** A repository reference by its parts: [owner/name], then optionally
    [/path], [:branch] and [@base]. *)
Record reference : Type := mkReference {
  ref_owner : string;
  ref_name : string;
  ref_path : option string;
  ref_branch : option string;
  ref_base : option string
}.

Definition suffix (sep : ascii) (part : option string) : string :=
  match part with
  | Some x => String sep x
  | None => ""
  end.

Definition or_default (part : option string) (default : string) : string :=
  match part with
  | Some x => x
  | None => default
  end.

(** The reference as it is written on the command line. *)
Definition render_reference (r : reference) : string :=
  ((ref_owner r +++ String "/" (ref_name r +++ suffix "/" (ref_path r)))
     +++ suffix _SEP_BRANCH (ref_branch r))
    +++ suffix _SEP_BASE (ref_base r).

Definition free_of (seps : list ascii) (s : string) : bool :=
  forallb (fun c => negb (contains_char c s)) seps.

(** No part holds a separator that is cut before the part is reached. *)
Definition well_formed_reference (r : reference) : bool :=
  free_of ["/"; ":"; "@"]%char (ref_owner r) &&
  free_of ["/"; ":"; "@"]%char (ref_name r) &&
  free_of [":"; "@"]%char (or_default (ref_path r) "") &&
  free_of ["@"]%char (or_default (ref_branch r) "").

(** The commits endpoint [get_gh_commits] asks for a reference. *)
Definition gh_commits_url (r : reference) : string :=
  or_default (ref_base r) _DEFAULT_GH_BASE +++ "/repos/"
    +++ (ref_owner r +++ "/" +++ ref_name r)
    +++ "/commits?sha=" +++ or_default (ref_branch r) _DEFAULT_BRANCH
    +++ "&path=" +++ or_default (ref_path r) "".

(** The provider kinds, in the order [main] tests their flags. *)
Inductive provider : Type :=
| Pip | Npm | Go | GhCommit | GhTag | GhRelease | GhDeployment
| GlCommit | GlTag | Cr.

(** The first flag that holds a non-empty string, with its value. *)
Definition active_flag (a : args) : option (provider * string) :=
  if_flag pip a as x then Some (Pip, x) else
  if_flag npm a as x then Some (Npm, x) else
  if_flag go a as x then Some (Go, x) else
  if_flag gh_commit a as x then Some (GhCommit, x) else
  if_flag gh_tag a as x then Some (GhTag, x) else
  if_flag gh_release a as x then Some (GhRelease, x) else
  if_flag gh_deployment a as x then Some (GhDeployment, x) else
  if_flag gl_commit a as x then Some (GlCommit, x) else
  if_flag gl_tag a as x then Some (GlTag, x) else
  if_flag cr a as x then Some (Cr, x) else
  None.

(** The provider flags in the order [main] reads them. *)
Definition provider_flags : list (args -> option string) :=
  [pip; npm; go; gh_commit; gh_tag; gh_release; gh_deployment;
   gl_commit; gl_tag; cr].

Definition flag_at (k : nat) (a : args) : option string :=
  nth k provider_flags (fun _ => None) a.

(** The calendar keywords. *)
Definition cron_keywords : list string :=
  ["hourly"; "daily"; "weekly"; "monthly"; "yearly"; "annually"]%string.

(** The GitLab endpoints. *)
Definition gl_project_url (base repository : string) : string :=
  base +++ "/api/v4/projects/" +++ replace_char "/" "%2F" repository.

Definition gl_tags_url (base project : string) : string :=
  base +++ "/api/v4/projects/" +++ project
       +++ "/repository/tags?order_by=version".

Definition gl_commits_url (base project branch : string) : string :=
  base +++ "/api/v4/projects/" +++ project
       +++ "/repository/commits?ref_name=" +++ branch.

(** The versions of a list that were uploaded at [ts], in list order. *)
Definition uploaded_at (time_of : string -> string) (ts : string)
    (l : list string) : list string :=
  filter (fun v => String.eqb (time_of v) ts) l.

(** * Sample worlds *)

Definition retry_law_env : env :=
  mkEnv (fun n _ =>
           match n with
           | O => Failed URLError
           | 1%nat => Responded (mkResponse 503 None)
           | _ => Responded (mkResponse 200 (Some (JArr [])))
           end)
        (fun fmt => fmt).

Definition exhaustion_env : env :=
  mkEnv (fun _ _ => Failed (HTTPError 404)) (fun fmt => fmt).

(** The upstreams of the end-to-end scenarios: the registry lists the
    one tag [published], the package index two releases. *)
Definition scenario_env (published : string) : env :=
  mkEnv
    (fun _ url =>
       if String.eqb url (tags_url "library/demo") then
         Responded (mkResponse 200 (Some
           (JObj [("results"%string,
                   JArr [JObj [("name"%string, JStr published)]])])))
       else if String.eqb url "https://pypi.org/pypi/demo/json" then
         Responded (mkResponse 200 (Some
           (JObj [("releases"%string,
              JObj [("1.1.0"%string,
                     JArr [JObj [("yanked"%string, JBool false);
                                 ("upload_time_iso_8601"%string,
                                  JStr "2024-02-01T00:00:00.000000Z")]]);
                    ("1.0.0"%string,
                     JArr [JObj [("yanked"%string, JBool false);
                                 ("upload_time_iso_8601"%string,
                                  JStr "2024-01-01T00:00:00.000000Z")]])])])))
       else Failed (HTTPError 404))
    (fun fmt => fmt).

Definition scenario_args (docker pip_package : string) : args :=
  mkArgs docker (Some pip_package)
    None None None None None None None None None.

Definition no_str : json -> string := fun _ => ""%string.

Definition listing_env : env :=
  mkEnv
    (fun n _ =>
       match n with
       | O => Failed URLError
       | _ => Responded (mkResponse 200 (Some
                (JObj [("results"%string,
                        JArr [JObj [("name"%string, JStr "3.19")]])])))
       end)
    (fun fmt => fmt).

Definition bare_args (docker : string) : args :=
  mkArgs docker None None None None None None None None None None.

(** A registry that answers every request with an empty listing. *)
Definition empty_registry_env : env :=
  mkEnv
    (fun _ _ =>
       Responded (mkResponse 200 (Some (JObj [("results"%string, JArr [])]))))
    (fun fmt => fmt).

Definition gh_entries : list json :=
  [ JObj [("name"%string, JStr "v2"); ("sha"%string, JStr "bbb")];
    JObj [("name"%string, JStr "v1"); ("sha"%string, JStr "aaa")] ].

Definition gh_env : env :=
  mkEnv (fun _ _ => Responded (mkResponse 200 (Some (JArr gh_entries))))
        (fun fmt => fmt).





Definition release_file (is_yanked : bool) (uploaded : string) : json :=
  JObj [("yanked"%string, JBool is_yanked);
        ("upload_time_iso_8601"%string, JStr uploaded)].

(** A table with a later upload listed first, a yanked release and a
    release whose files are gone. *)
Definition sample_releases : list (string * json) :=
  [ ("1.1.0"%string, JArr [release_file false "2024-02-01T00:00:00.000000Z"]);
    ("0.9.0"%string, JArr []);
    ("1.0.0"%string, JArr [release_file false "2024-01-01T00:00:00.000000Z"]);
    ("1.2.0"%string, JArr [release_file true "2024-03-01T00:00:00.000000Z"]) ].

Definition sample_index : json := JObj [("releases"%string, JObj sample_releases)].

Definition index_env : env :=
  mkEnv (fun _ _ => Responded (mkResponse 200 (Some sample_index)))
        (fun fmt => fmt).

(** A reference with every part, the base carrying a port. *)
Definition full_reference : reference :=
  mkReference "Kamdzy" "get-tag" (Some "docs"%string) (Some "main"%string)
    (Some "https://ghe.example:8443/api/v3"%string).

(** A registry that answers every request with an object that has no
    ["results"]. *)
Definition no_results_env : env :=
  mkEnv (fun _ _ =>
           Responded (mkResponse 200 (Some (JObj [("count"%string, JInt 0)]))))
        (fun fmt => fmt).

(** An upstream that answers every request with an empty list. *)
Definition empty_list_env : env :=
  mkEnv (fun _ _ => Responded (mkResponse 200 (Some (JArr []))))
        (fun fmt => fmt).

(** A package whose only release is yanked. *)
Definition yanked_releases : list (string * json) :=
  [ ("2.0.0"%string, JArr [release_file true "2024-05-01T00:00:00.000000Z"]) ].

Definition yanked_index : json :=
  JObj [("releases"%string, JObj yanked_releases)].

Definition yanked_env : env :=
  mkEnv (fun _ _ => Responded (mkResponse 200 (Some yanked_index)))
        (fun fmt => fmt).



(** GitLab: the first request resolves the project path to its id, the
    second lists its tags, newest first. *)
Definition gitlab_env : env :=
  mkEnv
    (fun n _ =>
       match n with
       | O => Responded (mkResponse 200 (Some
                (JObj [("id"%string, JInt 278964);
                       ("path_with_namespace"%string,
                        JStr "gitlab-org/gitlab")])))
       | _ => Responded (mkResponse 200 (Some
                (JArr [JObj [("name"%string, JStr "v17.1.0")];
                       JObj [("name"%string, JStr "v17.0.0")]])))
       end)
    (fun fmt => fmt).

(** GitLab answering every request with the same two entries. *)
Definition gitlab_list_env : env :=
  mkEnv
    (fun _ _ =>
       Responded (mkResponse 200 (Some
         (JArr [JObj [("name"%string, JStr "v17.1.0");
                      ("id"%string, JStr "f3a9")];
                JObj [("name"%string, JStr "v17.0.0");
                      ("id"%string, JStr "0c1d")]]))))
    (fun fmt => fmt).

(** Two releases uploaded at the same instant, the later listed one
    first in the index. *)
Definition tied_releases : list (string * json) :=
  [ ("1.0.0.post1"%string,
     JArr [release_file false "2024-01-01T00:00:00.000000Z"]);
    ("1.0.0"%string,
     JArr [release_file false "2024-01-01T00:00:00.000000Z"]);
    ("0.9.0"%string,
     JArr [release_file false "2023-06-01T00:00:00.000000Z"]) ].

Definition tied_index : json := JObj [("releases"%string, JObj tied_releases)].

Definition tied_env : env :=
  mkEnv (fun _ _ => Responded (mkResponse 200 (Some tied_index)))
        (fun fmt => fmt).

Definition cron_args (docker granularity : string) : args :=
  mkArgs docker None None None None None None None None None
    (Some granularity).

(** * Properties *)

(** ** The trace *)

Lemma requests_made_app (t u : trace) :
  requests_made (t ++ u) = (requests_made t + requests_made u)%nat.
Proof.
  unfold requests_made, requests. now rewrite filter_app, length_app.
Qed.

Lemma requests_made_silent (t : trace) (ev : event) :
  is_request ev = false -> requests_made (t ++ [ev]) = requests_made t.
Proof.
  intros H. rewrite requests_made_app. unfold requests_made, requests.
  cbn. rewrite H. cbn. lia.
Qed.

(** ** Resilient fetcher *)

Lemma attempt_fail (w : env) (t : trace) (url : string) :
  attempt_fails (net w (requests_made t) url) = true ->
  attempt url w t =
    (Raise (failure_of (net w (requests_made t) url)), t ++ [EvRequest url]).
Proof.
  unfold attempt, bind, urlopen, attempt_fails, failure_of.
  destruct (net w (requests_made t) url) as [e | r]; [reflexivity |].
  intros H. unfold py_assert. destruct (200 =? status r); [discriminate |].
  reflexivity.
Qed.

Lemma attempt_ok (w : env) (t : trace) (url : string) :
  attempt_fails (net w (requests_made t) url) = false ->
  exists r, net w (requests_made t) url = Responded r /\ status r = 200 /\
    attempt url w t = (Ok r, t ++ [EvRequest url]).
Proof.
  unfold attempt, bind, urlopen, attempt_fails.
  destruct (net w (requests_made t) url) as [e | r]; [discriminate |].
  intros H. exists r. apply negb_false_iff in H.
  unfold py_assert. rewrite H. apply Z.eqb_eq in H. auto.
Qed.

Lemma requests_made_announced (url : string) (k : nat) (t : trace) :
  requests_made (announced url k t) = requests_made t.
Proof.
  unfold announced. destruct (Nat.eqb _RETRIES k); [| reflexivity].
  now apply requests_made_silent.
Qed.

Lemma _urlopen_eq (url : string) (k : nat) (w : env) (t : trace) :
  _urlopen url k w t =
    match attempt url w (announced url k t) with
    | (Ok r, t') => (Ok r, t')
    | (Raise ex, t') =>
        match k with
        | O => (Raise ex, t')
        | S k' =>
            _urlopen url k' w
              (t' ++ [EvStderr "sleep" (JInt (backoff k)); EvSleep (backoff k)])
        end
    end.
Proof.
  destruct k as [| k']; cbn [_urlopen]; unfold bind at 1, try_except, announced;
    fold (attempt url).
  - destruct (Nat.eqb _RETRIES 0); cbn;
      destruct (attempt url w _) as [[r | ex] t']; reflexivity.
  - destruct (Nat.eqb _RETRIES (S k')); cbn;
      destruct (attempt url w _) as [[r | ex] t']; try reflexivity;
      unfold bind, print_stderr, time_sleep, emit, backoff;
      now rewrite <- app_assoc.
Qed.

Lemma _urlopen_retry (url : string) (k : nat) (w : env) (t : trace) :
  attempt_fails (net w (requests_made t) url) = true ->
  _urlopen url (S k) w t =
    _urlopen url k w
      (announced url (S k) t ++
       [EvRequest url; EvStderr "sleep" (JInt (backoff (S k)));
        EvSleep (backoff (S k))]).
Proof.
  intros H. rewrite _urlopen_eq.
  rewrite attempt_fail by now rewrite requests_made_announced.
  now rewrite <- app_assoc.
Qed.

Lemma _urlopen_give_up (url : string) (w : env) (t : trace) :
  attempt_fails (net w (requests_made t) url) = true ->
  _urlopen url 0 w t =
    (Raise (failure_of (net w (requests_made t) url)),
     announced url 0 t ++ [EvRequest url]).
Proof.
  intros H. rewrite _urlopen_eq.
  rewrite attempt_fail by now rewrite requests_made_announced.
  now rewrite requests_made_announced.
Qed.

Lemma _urlopen_success (url : string) (k : nat) (w : env) (t : trace)
    (r : response) :
  net w (requests_made t) url = Responded r -> status r = 200 ->
  _urlopen url k w t = (Ok r, announced url k t ++ [EvRequest url]).
Proof.
  intros Hn Hs. rewrite _urlopen_eq.
  destruct (attempt_ok w (announced url k t) url) as (r' & Hr & _ & ->).
  - rewrite requests_made_announced, Hn. cbn. now rewrite Hs.
  - rewrite requests_made_announced, Hn in Hr. now inversion Hr.
Qed.

Lemma announced_first (url : string) (t : trace) :
  announced url 3 t = t ++ [EvStderr "url" (JStr url)].
Proof. reflexivity. Qed.

(** Normalises a trace to [t ++ concrete events] and counts the requests
    in it. *)
Ltac count_requests :=
  rewrite ?announced_first; unfold announced; cbn [Nat.eqb _RETRIES];
  rewrite <- ?app_assoc; cbn [app];
  rewrite ?requests_made_app;
  cbn [requests_made requests filter is_request List.length];
  rewrite ?Nat.add_0_r.

(** C3. A fetch whose first two attempts fail, by exception or by a
    status other than 200, and whose third attempt answers 200 returns
    that third response; on the way it sleeps exactly twice, 30 and then
    60 seconds, and sends three requests to the same URL. *)
Theorem urlopen_retry_law (w : env) (t : trace) (url : string) (r : response) :
  attempt_fails (net w (requests_made t) url) = true ->
  attempt_fails (net w (requests_made t + 1) url) = true ->
  net w (requests_made t + 2) url = Responded r ->
  status r = 200 ->
  exists t',
    _urlopen url _RETRIES w t = (Ok r, t ++ t') /\
    sleeps t' = [30; 60] /\
    requests t' = [EvRequest url; EvRequest url; EvRequest url].
Proof.
  intros H1 H2 H3 Hs.
  exists [EvStderr "url" (JStr url);
          EvRequest url; EvStderr "sleep" (JInt 30); EvSleep 30;
          EvRequest url; EvStderr "sleep" (JInt 60); EvSleep 60;
          EvRequest url].
  split; [| split; reflexivity].
  rewrite Nat.add_1_r in H2.
  replace (requests_made t + 2)%nat with (S (S (requests_made t))) in H3 by lia.
  unfold _RETRIES.
  rewrite _urlopen_retry by assumption.
  rewrite _urlopen_retry by (count_requests; now rewrite Nat.add_1_r).
  rewrite (_urlopen_success _ _ _ _ r); [| count_requests | exact Hs].
  - count_requests. reflexivity.
  - now replace (requests_made t + 2)%nat with (S (S (requests_made t))) by lia.
Qed.

Lemma urlopen_retry_law_witness :
  exists t',
    _urlopen "https://example.org" _RETRIES retry_law_env [] =
      (Ok (mkResponse 200 (Some (JArr []))), [] ++ t') /\
    sleeps t' = [30; 60] /\
    requests t' = [EvRequest "https://example.org";
                   EvRequest "https://example.org";
                   EvRequest "https://example.org"].
Proof.
  apply (urlopen_retry_law retry_law_env [] "https://example.org"
           (mkResponse 200 (Some (JArr [])))); reflexivity.
Defined.

(** C7. When every attempt fails, the fetcher sends four requests, the
    first and three retries, sleeps 30, 60 and 90 seconds between them,
    returns no value and raises the failure of the last attempt. *)
Theorem urlopen_exhaustion (w : env) (t : trace) (url : string) :
  (forall i, (i < 4)%nat ->
     attempt_fails (net w (requests_made t + i) url) = true) ->
  exists t',
    _urlopen url _RETRIES w t =
      (Raise (failure_of (net w (requests_made t + 3) url)), t ++ t') /\
    requests t' = [EvRequest url; EvRequest url; EvRequest url; EvRequest url] /\
    sleeps t' = [30; 60; 90].
Proof.
  intros H.
  exists [EvStderr "url" (JStr url);
          EvRequest url; EvStderr "sleep" (JInt 30); EvSleep 30;
          EvRequest url; EvStderr "sleep" (JInt 60); EvSleep 60;
          EvRequest url; EvStderr "sleep" (JInt 90); EvSleep 90;
          EvRequest url].
  split; [| split; reflexivity].
  unfold _RETRIES.
  rewrite _urlopen_retry
    by (specialize (H 0%nat); rewrite Nat.add_0_r in H; apply H; lia).
  rewrite _urlopen_retry by (count_requests; apply (H 1%nat); lia).
  rewrite _urlopen_retry by (count_requests; apply (H 2%nat); lia).
  rewrite _urlopen_give_up by (count_requests; apply (H 3%nat); lia).
  count_requests. reflexivity.
Qed.

Lemma urlopen_exhaustion_witness :
  exists t',
    _urlopen "https://example.org" _RETRIES exhaustion_env [] =
      (Raise (failure_of (net exhaustion_env (requests_made [] + 3)
                              "https://example.org")), [] ++ t') /\
    requests t' = [EvRequest "https://example.org";
                   EvRequest "https://example.org";
                   EvRequest "https://example.org";
                   EvRequest "https://example.org"] /\
    sleeps t' = [30; 60; 90].
Proof.
  apply (urlopen_exhaustion exhaustion_env [] "https://example.org").
  intros i Hi. reflexivity.
Defined.

Lemma stdout_app (t u : trace) : stdout (t ++ u) = stdout t ++ stdout u.
Proof.
  induction t as [| ev t IH]; [reflexivity |].
  destruct ev; cbn; now rewrite IH.
Qed.

Lemma requests_app (t u : trace) : requests (t ++ u) = requests t ++ requests u.
Proof. apply filter_app. Qed.

Lemma announced_app (url : string) (k : nat) (t : trace) :
  announced url k t = t ++ announced url k [].
Proof.
  unfold announced. destruct (Nat.eqb _RETRIES k); [reflexivity |].
  now rewrite app_nil_r.
Qed.

Lemma announced_quiet (url : string) (k : nat) :
  requests (announced url k []) = [] /\ stdout (announced url k []) = [].
Proof. unfold announced. destruct (Nat.eqb _RETRIES k); now split. Qed.

(** What any call of the fetcher does: it sends [S j] requests to [url]
    for some [j <= __retries], prints nothing on standard output, and
    either returns the answer of the last request, the first one that
    did not fail, or has used every retry and raises the last failure. *)
Lemma _urlopen_spec (url : string) (k : nat) (w : env) (t : trace) :
  exists (j : nat) (t' : trace) (res : result response),
    _urlopen url k w t = (res, t ++ t') /\
    (j <= k)%nat /\
    requests t' = repeat (EvRequest url) (S j) /\
    stdout t' = [] /\
    (forall i, (i < j)%nat ->
       attempt_fails (net w (requests_made t + i) url) = true) /\
    match res with
    | Ok r => net w (requests_made t + j) url = Responded r /\ status r = 200
    | Raise e =>
        j = k /\ attempt_fails (net w (requests_made t + j) url) = true /\
        e = failure_of (net w (requests_made t + j) url)
    end.
Proof.
  revert t. induction k as [| k IH]; intros t.
  - destruct (attempt_fails (net w (requests_made t) url)) eqn:Hf.
    + exists 0%nat, (announced url 0 [] ++ [EvRequest url]), 
        (Raise (failure_of (net w (requests_made t) url))).
      rewrite _urlopen_give_up by exact Hf.
      rewrite (announced_app url 0 t), <- app_assoc, Nat.add_0_r.
      repeat split; auto; try lia.
    + destruct (attempt_ok w t url Hf) as (r & Hn & Hs & _).
      exists 0%nat, (announced url 0 [] ++ [EvRequest url]), (Ok r).
      rewrite (_urlopen_success url 0 w t r Hn Hs).
      rewrite (announced_app url 0 t), <- app_assoc, Nat.add_0_r.
      repeat split; auto; try lia.
  - destruct (attempt_fails (net w (requests_made t) url)) eqn:Hf.
    + rewrite _urlopen_retry by exact Hf.
      set (u := [EvRequest url; EvStderr "sleep" (JInt (backoff (S k)));
                 EvSleep (backoff (S k))]).
      destruct (IH (announced url (S k) t ++ u)) as
        (j & t' & res & Heq & Hj & Hreq & Hout & Hfail & Hres).
      assert (Hn : requests_made (announced url (S k) t ++ u)
                   = S (requests_made t)).
      { rewrite requests_made_app, requests_made_announced. cbn. lia. }
      rewrite Hn in Hfail, Hres.
      exists (S j), (announced url (S k) [] ++ u ++ t'), res.
      rewrite Heq, (announced_app url (S k) t), <- !app_assoc.
      destruct (announced_quiet url (S k)) as [Hq1 Hq2].
      split; [reflexivity |]. split; [lia |].
      split; [rewrite !requests_app, Hq1, Hreq; reflexivity |].
      split; [rewrite !stdout_app, Hq2, Hout; reflexivity |].
      split.
      * intros [| i] Hi; [now rewrite Nat.add_0_r |].
        replace (requests_made t + S i)%nat with (S (requests_made t) + i)%nat
          by lia.
        apply Hfail. lia.
      * replace (requests_made t + S j)%nat with (S (requests_made t) + j)%nat
          by lia.
        destruct res as [r | e]; [exact Hres |].
        destruct Hres as (-> & H1 & H2). auto.
    + destruct (attempt_ok w t url Hf) as (r & Hn & Hs & _).
      exists 0%nat, (announced url (S k) [] ++ [EvRequest url]), (Ok r).
      rewrite (_urlopen_success url (S k) w t r Hn Hs).
      rewrite (announced_app url (S k) t), <- app_assoc, Nat.add_0_r.
      destruct (announced_quiet url (S k)) as [Hq1 Hq2].
      split; [reflexivity |]. split; [lia |].
      split; [rewrite requests_app, Hq1; reflexivity |].
      split; [rewrite stdout_app, Hq2; reflexivity |].
      split; [intros i Hi; lia | auto].
Qed.

(** ** Computations that leave standard output alone *)

Create HintDb quiet.

Lemma quiet_ret {A} (a : A) : quiet (ret a).
Proof. intros w t. exists []. now rewrite app_nil_r. Qed.

Lemma quiet_raise {A} (e : exn) : quiet (@raise A e).
Proof. intros w t. exists []. now rewrite app_nil_r. Qed.

Lemma quiet_lift {A} (r : result A) : quiet (lift r).
Proof. intros w t. exists []. now rewrite app_nil_r. Qed.

Lemma quiet_now_strftime (fmt : string) : quiet (now_strftime fmt).
Proof. intros w t. exists []. now rewrite app_nil_r. Qed.

Lemma quiet_bind {A B} (m : M A) (k : A -> M B) :
  quiet m -> (forall a, quiet (k a)) -> quiet (bind m k).
Proof.
  intros Hm Hk w t. unfold bind.
  destruct (Hm w t) as (t1 & H1 & Ho1).
  destruct (m w t) as [[a | e] tm]; cbn in H1; subst tm.
  - destruct (Hk a w (t ++ t1)) as (t2 & H2 & Ho2).
    exists (t1 ++ t2). rewrite H2, app_assoc, stdout_app, Ho1, Ho2. now split.
  - exists t1. now split.
Qed.

Lemma quiet__urlopen (url : string) (k : nat) : quiet (_urlopen url k).
Proof.
  intros w t.
  destruct (_urlopen_spec url k w t) as (j & t' & res & Heq & _ & _ & Ho & _).
  exists t'. now rewrite Heq.
Qed.

#[local] Hint Resolve quiet_ret quiet_raise quiet_lift quiet_now_strftime
  quiet__urlopen : quiet.

(** Splits a chain of binds and closes the leaves from the database. *)
Ltac quiet_chain :=
  repeat first
    [ solve [auto with quiet]
    | progress cbv zeta
    | apply quiet_bind; [| intros ?]
    | match goal with
      | |- quiet (match ?x with _ => _ end) => destruct x
      end ];
  auto with quiet.

Lemma quiet_read_json (r : response) : quiet (read_json r).
Proof. apply quiet_lift. Qed.

#[local] Hint Resolve quiet_read_json : quiet.

Lemma quiet_reversed_fields (field : string) (r : response) :
  quiet (reversed_fields field r).
Proof. unfold reversed_fields. quiet_chain. Qed.

#[local] Hint Resolve quiet_reversed_fields : quiet.

Lemma quiet_get_docker_tags (repository : string) :
  quiet (get_docker_tags repository).
Proof.
  unfold get_docker_tags. destruct (String.eqb repository ""); quiet_chain.
Qed.

Lemma quiet_get_pip_version (package : string) : quiet (get_pip_version package).
Proof.
  unfold get_pip_version, get_pip_version_2, get_pip_versions_2. quiet_chain.
Qed.

Lemma quiet_get_npm_version (package : string) : quiet (get_npm_version package).
Proof. unfold get_npm_version, get_npm_version_1. quiet_chain. Qed.

Lemma quiet_get_go_version (module : string) : quiet (get_go_version module).
Proof. unfold get_go_version, get_go_version_1. quiet_chain. Qed.

Lemma quiet_get_gh_commit (repository : string) :
  quiet (get_gh_commit repository).
Proof. unfold get_gh_commit, get_gh_commits. quiet_chain. Qed.

Lemma quiet_get_gh_tag (repository : string) : quiet (get_gh_tag repository).
Proof. unfold get_gh_tag, get_gh_tags. quiet_chain. Qed.

Lemma quiet_get_gh_release (repository : string) :
  quiet (get_gh_release repository).
Proof. unfold get_gh_release, get_gh_release_2. quiet_chain. Qed.

Lemma quiet_get_gh_deployment (repository : string) :
  quiet (get_gh_deployment repository).
Proof. unfold get_gh_deployment, get_gh_deployments. quiet_chain. Qed.

Lemma quiet_get_cron_tag (cron : string) : quiet (get_cron_tag cron).
Proof.
  unfold get_cron_tag. destruct (lookup cron _CR_COICES); quiet_chain.
Qed.

Section RenderingProperties.

Variable str_container : json -> string.

Lemma quiet__get_gl_repository (repository base : string) :
  quiet (_get_gl_repository repository base).
Proof.
  unfold _get_gl_repository. destruct (isdigit repository); quiet_chain.
Qed.

Hint Resolve quiet__get_gl_repository : quiet.

Lemma quiet_get_gl_commit (repository : string) :
  quiet (get_gl_commit str_container repository).
Proof. unfold get_gl_commit, get_gl_commits. quiet_chain. Qed.

Lemma quiet_get_gl_tag (repository : string) :
  quiet (get_gl_tag str_container repository).
Proof. unfold get_gl_tag, get_gl_tags. quiet_chain. Qed.

Lemma main_eq (a : args) :
  main str_container a =
    (tags <- get_docker_tags (docker_tag a) ;;
     tag <- resolved_tag str_container a ;;
     if negb (py_in tag tags)
     then print_stdout ("tag=" +++ py_str str_container tag)
     else ret tt).
Proof. reflexivity. Qed.

Lemma quiet_resolved_tag (a : args) : quiet (resolved_tag str_container a).
Proof.
  unfold resolved_tag.
  repeat match goal with
         | |- quiet (match selected ?f with _ => _ end) => destruct (selected f)
         end;
  auto using quiet_get_pip_version, quiet_get_npm_version,
    quiet_get_go_version, quiet_get_gh_commit, quiet_get_gh_tag,
    quiet_get_gh_release, quiet_get_gh_deployment, quiet_get_gl_commit,
    quiet_get_gl_tag, quiet_get_cron_tag, quiet_raise.
Qed.

End RenderingProperties.

(** ** Published tags *)

Lemma py_eq_str (s : string) (x : json) :
  py_eq (JStr s) x = true <-> x = JStr s.
Proof.
  destruct x; cbn; try (split; [discriminate | congruence]).
  rewrite String.eqb_eq. split; congruence.
Qed.

Lemma py_in_str (s : string) (l : list json) :
  py_in (JStr s) l = true <-> In (JStr s) l.
Proof.
  unfold py_in. rewrite existsb_exists. split.
  - intros (x & Hin & Heq). apply py_eq_str in Heq. now subst.
  - intros Hin. exists (JStr s). split; [exact Hin |]. now apply py_eq_str.
Qed.

(** A fetch of the tag listing: every request goes to [tags_url], the
    first [j] of them fail, and the outcome is decided by the last one. *)
Lemma get_docker_tags_spec (repository : string) (w : env) (t : trace) :
  repository <> ""%string ->
  exists (j : nat) (t' : trace) (res : result (list json)),
    get_docker_tags repository w t = (res, t ++ t') /\
    (j <= 3)%nat /\
    requests t' = repeat (EvRequest (tags_url repository)) (S j) /\
    (forall i, (i < j)%nat ->
       attempt_fails (net w (requests_made t + i) (tags_url repository))
         = true) /\
    ((exists r,
        net w (requests_made t + j) (tags_url repository) = Responded r /\
        status r = 200 /\ res = tag_names r)
     \/
     (j = 3%nat /\
      attempt_fails (net w (requests_made t + j) (tags_url repository))
        = true /\
      res = Raise (failure_of
                     (net w (requests_made t + j) (tags_url repository))))).
Proof.
  intros Hne. apply String.eqb_neq in Hne.
  unfold get_docker_tags. rewrite Hne. cbv zeta. fold (tags_url repository).
  destruct (_urlopen_spec (tags_url repository) _RETRIES w t)
    as (j & t' & res & Heq & Hj & Hreq & _ & Hfail & Hres).
  unfold bind at 1. rewrite Heq.
  destruct res as [r | e].
  - exists j, t', (tag_names r). destruct Hres as [Hn Hs].
    split.
    + unfold bind, read_json, lift, tag_names, rbind.
      destruct (json_loads (body r)); reflexivity.
    + repeat split; auto. left. exists r. auto.
  - exists j, t', (Raise e). destruct Hres as (Hk & Hf & He).
    repeat split; auto. right. subst e. auto.
Qed.

(** C8. With the empty string for the artifact repository,
    [get_docker_tags] returns the empty list and leaves the trace as it
    was: no request is sent, nothing sleeps, nothing is printed, and no
    exception is raised. *)
Theorem get_docker_tags_empty (w : env) (t : trace) :
  get_docker_tags "" w t = (Ok [], t).
Proof. reflexivity. Qed.

(** ** Selector *)

Lemma resolved_tag_no_provider (str_container : json -> string) (a : args) :
  no_provider a = true ->
  resolved_tag str_container a = raise NotImplementedError.
Proof.
  unfold no_provider, resolved_tag. cbn [forallb].
  repeat match goal with
         | |- context [selected ?f] => destruct (selected f); cbn [andb]
         end; try discriminate.
  reflexivity.
Qed.

(** A run in which both the tag listing and the provider answer. *)
Lemma main_run (str_container : json -> string) (a : args)
    (w : env) (t t1 t2 : trace) (tags : list json) (tag : json) :
  get_docker_tags (docker_tag a) w t = (Ok tags, t1) ->
  resolved_tag str_container a w t1 = (Ok tag, t2) ->
  main str_container a w t =
    (Ok tt,
     t2 ++ (if py_in tag tags then []
            else [EvStdout ("tag=" +++ py_str str_container tag)])) /\
  stdout t2 = stdout t.
Proof.
  intros Htags Htag.
  destruct (quiet_get_docker_tags (docker_tag a) w t) as (u1 & Hu1 & Ho1).
  destruct (quiet_resolved_tag str_container a w t1) as (u2 & Hu2 & Ho2).
  rewrite Htags in Hu1. rewrite Htag in Hu2. cbn in Hu1, Hu2.
  split.
  - rewrite main_eq. unfold bind. rewrite Htags, Htag.
    destruct (py_in tag tags); cbn [negb]; [| reflexivity].
    unfold ret. now rewrite app_nil_r.
  - subst t2 t1. now rewrite !stdout_app, Ho1, Ho2, !app_nil_r.
Qed.

(** C2. Once the published tags and then the version identifier have
    been obtained, [main] ends normally and standard output gains the one
    line [tag=<identifier>] when [tag not in tags], and nothing when the
    identifier is among the tags.  For an identifier that is a string,
    [in] is plain membership in the tag list. *)
Theorem main_prints_iff_novel (str_container : json -> string) (a : args)
    (w : env) (t t1 t2 : trace) (tags : list json) (tag : json) :
  get_docker_tags (docker_tag a) w t = (Ok tags, t1) ->
  resolved_tag str_container a w t1 = (Ok tag, t2) ->
  exists t',
    main str_container a w t = (Ok tt, t') /\
    stdout t' =
      stdout t ++
      (if py_in tag tags then []
       else ["tag=" +++ py_str str_container tag]) /\
    (forall s, tag = JStr s ->
       (In tag tags -> stdout t' = stdout t) /\
       (~ In tag tags -> stdout t' = stdout t ++ ["tag=" +++ s])).
Proof.
  intros Htags Htag.
  destruct (main_run str_container a w t t1 t2 tags tag Htags Htag)
    as [Hrun Hout].
  eexists. split; [exact Hrun |].
  rewrite stdout_app, Hout.
  destruct (py_in tag tags) eqn:Hin.
  - split; [reflexivity |]. intros s ->. cbn. rewrite app_nil_r.
    split; [reflexivity |]. intros Hn. apply py_in_str in Hin. contradiction.
  - split; [reflexivity |]. intros s ->. split; [| reflexivity].
    intros Hi. apply py_in_str in Hi. congruence.
Qed.

Lemma main_prints_iff_novel_witness :
  exists t',
    main no_str (scenario_args "library/demo" "demo") (scenario_env "1.0.0") [] =
      (Ok tt, t') /\
    stdout t' =
      stdout [] ++
      (if py_in (JStr "1.1.0") [JStr "1.0.0"] then []
       else ["tag=" +++ py_str no_str (JStr "1.1.0")]) /\
    (forall s, JStr "1.1.0" = JStr s ->
       (In (JStr "1.1.0") [JStr "1.0.0"] -> stdout t' = stdout []) /\
       (~ In (JStr "1.1.0") [JStr "1.0.0"] ->
        stdout t' = stdout [] ++ ["tag=" +++ s])).
Proof.
  pose (a := scenario_args "library/demo" "demo").
  pose (t1 := snd (get_docker_tags (docker_tag a) (scenario_env "1.0.0") [])).
  pose (t2 := snd (resolved_tag no_str a (scenario_env "1.0.0") t1)).
  apply (main_prints_iff_novel no_str a (scenario_env "1.0.0") [] t1 t2);
    vm_compute; reflexivity.
Defined.

(** End-to-end scenario 1: nothing published yet, so the latest release
    is printed. *)
Example scenario_nothing_published :
  main no_str (scenario_args "" "demo") (scenario_env "1.0.0") [] =
    (Ok tt,
     [EvStderr "url" (JStr "https://pypi.org/pypi/demo/json");
      EvRequest "https://pypi.org/pypi/demo/json";
      EvStdout "tag=1.1.0"]).
Proof. reflexivity. Qed.

(** End-to-end scenario 2: the latest release is already published, so
    nothing is printed. *)
Example scenario_already_published :
  stdout (snd (main no_str (scenario_args "library/demo" "demo")
                 (scenario_env "1.1.0") [])) = [].
Proof. reflexivity. Qed.

(** A run with no provider flag: the tag listing is fetched first and
    the chain of flags is reached only afterwards. *)
Lemma main_no_provider (str_container : json -> string) (a : args)
    (w : env) (t : trace) :
  no_provider a = true ->
  main str_container a w t =
    match get_docker_tags (docker_tag a) w t with
    | (Ok _, t') => (Raise NotImplementedError, t')
    | (Raise e, t') => (Raise e, t')
    end.
Proof.
  intros Hno. rewrite main_eq. unfold bind at 1.
  destruct (get_docker_tags (docker_tag a) w t) as [[tags | e] t'];
    [| reflexivity].
  unfold bind. now rewrite (resolved_tag_no_provider _ _ Hno).
Qed.

(** C1, as the code has it.  With no provider flag the run always fails.
    With the empty artifact repository it fails with
    [NotImplementedError] and the trace is untouched: no request is sent.
    With a non-empty one the tag listing is fetched first: one to four
    requests go out, all to the tag-listing URL, nothing is printed on
    standard output, and the run then fails, with [NotImplementedError]
    when that fetch returned tags and with the fetch's own exception
    otherwise. *)
Theorem no_provider_fails_after_tag_listing (str_container : json -> string)
    (a : args) (w : env) (t : trace) :
  no_provider a = true ->
  (docker_tag a = ""%string ->
   main str_container a w t = (Raise NotImplementedError, t)) /\
  (docker_tag a <> ""%string ->
   exists (j : nat) (t' : trace) (e : exn),
     main str_container a w t = (Raise e, t ++ t') /\
     (j <= 3)%nat /\
     requests t' = repeat (EvRequest (tags_url (docker_tag a))) (S j) /\
     stdout t' = [] /\
     match fst (get_docker_tags (docker_tag a) w t) with
     | Ok _ => e = NotImplementedError
     | Raise e' => e = e'
     end).
Proof.
  intros Hno. split.
  - intros Hempty. rewrite (main_no_provider _ _ _ _ Hno), Hempty.
    reflexivity.
  - intros Hne. rewrite (main_no_provider _ _ _ _ Hno).
    destruct (get_docker_tags_spec (docker_tag a) w t Hne)
      as (j & t' & res & Heq & Hj & Hreq & _).
    destruct (quiet_get_docker_tags (docker_tag a) w t) as (u & Hu & Hout).
    rewrite Heq in Hu. cbn in Hu. apply app_inv_head in Hu. subst u.
    rewrite Heq. cbn [fst].
    destruct res as [tags | e].
    + exists j, t', NotImplementedError. auto.
    + exists j, t', e. auto.
Qed.

Lemma no_provider_fails_after_tag_listing_witness :
  (docker_tag (bare_args "library/alpine") = ""%string ->
   main no_str (bare_args "library/alpine") listing_env [] =
     (Raise NotImplementedError, [])) /\
  (docker_tag (bare_args "library/alpine") <> ""%string ->
   exists (j : nat) (t' : trace) (e : exn),
     main no_str (bare_args "library/alpine") listing_env [] =
       (Raise e, [] ++ t') /\
     (j <= 3)%nat /\
     requests t' =
       repeat (EvRequest (tags_url (docker_tag (bare_args "library/alpine"))))
              (S j) /\
     stdout t' = [] /\
     match fst (get_docker_tags (docker_tag (bare_args "library/alpine"))
                  listing_env []) with
     | Ok _ => e = NotImplementedError
     | Raise e' => e = e'
     end).
Proof.
  apply (no_provider_fails_after_tag_listing no_str
           (bare_args "library/alpine") listing_env []).
  reflexivity.
Defined.

(** C1 as stated fails: with no provider flag and the artifact
    repository [library/alpine], a request to the registry is on the
    trace when [NotImplementedError] is raised. *)
Lemma no_provider_request_precedes_error :
  no_provider (bare_args "library/alpine") = true /\
  fst (main no_str (bare_args "library/alpine") empty_registry_env []) =
    Raise NotImplementedError /\
  requests (snd (main no_str (bare_args "library/alpine") empty_registry_env [])) =
    [EvRequest "https://hub.docker.com/v2/repositories/library/alpine/tags"] /\
  ~ (forall (a : args) (w : env),
       no_provider a = true -> requests (snd (main no_str a w [])) = []).
Proof.
  split; [reflexivity |]. split; [reflexivity |]. split; [reflexivity |].
  intros H.
  specialize (H (bare_args "library/alpine") empty_registry_env eq_refl).
  discriminate H.
Qed.

(** C10, as the code has it.  For a non-empty artifact repository
    [get_docker_tags] fetches the one tag-listing URL through the
    resilient fetcher: [S j] requests with [j <= 3], all to that URL,
    the first [j] of them failed attempts.  It then either returns
    exactly the ["name"] fields of the ["results"] of the last response,
    in response order, or has used every retry and raises.  No other
    response is read, so a published tag missing from that response is
    not in the list, and [main] prints a version carrying such a tag as
    novel. *)
Theorem docker_tags_single_listing (repository : string) (w : env)
    (t : trace) :
  repository <> ""%string ->
  exists (j : nat) (t' : trace) (res : result (list json)),
    get_docker_tags repository w t = (res, t ++ t') /\
    (j <= 3)%nat /\
    requests t' = repeat (EvRequest (tags_url repository)) (S j) /\
    (forall i, (i < j)%nat ->
       attempt_fails (net w (requests_made t + i) (tags_url repository))
         = true) /\
    ((exists r,
        net w (requests_made t + j) (tags_url repository) = Responded r /\
        status r = 200 /\ res = tag_names r)
     \/
     (j = 3%nat /\
      attempt_fails (net w (requests_made t + j) (tags_url repository))
        = true /\
      res = Raise (failure_of
                     (net w (requests_made t + j) (tags_url repository))))) /\
    (forall names s,
       res = Ok names -> ~ In (JStr s) names ->
       py_in (JStr s) names = false /\
       forall (str_container : json -> string) (a : args) (t2 : trace),
         docker_tag a = repository ->
         resolved_tag str_container a w (t ++ t') = (Ok (JStr s), t2) ->
         exists t3,
           main str_container a w t = (Ok tt, t3) /\
           stdout t3 = stdout t ++ ["tag=" +++ s]).
Proof.
  intros Hne.
  destruct (get_docker_tags_spec repository w t Hne)
    as (j & t' & res & Heq & Hj & Hreq & Hfail & Hres).
  exists j, t', res. repeat (split; [assumption |]).
  intros names s -> Hnot.
  assert (Hin : py_in (JStr s) names = false).
  { destruct (py_in (JStr s) names) eqn:E; [| reflexivity].
    apply py_in_str in E. contradiction. }
  split; [exact Hin |].
  intros str_container a t2 Ha Htag. subst repository.
  destruct (main_run str_container a w t _ t2 names (JStr s) Heq Htag)
    as [Hrun Hout].
  rewrite Hin in Hrun. eexists. split; [exact Hrun |].
  now rewrite stdout_app, Hout.
Qed.

Lemma docker_tags_single_listing_witness :
  exists (j : nat) (t' : trace) (res : result (list json)),
    get_docker_tags "library/alpine" listing_env [] = (res, [] ++ t') /\
    (j <= 3)%nat /\
    requests t' = repeat (EvRequest (tags_url "library/alpine")) (S j) /\
    (forall i, (i < j)%nat ->
       attempt_fails
         (net listing_env (requests_made [] + i) (tags_url "library/alpine"))
         = true) /\
    ((exists r,
        net listing_env (requests_made [] + j) (tags_url "library/alpine")
          = Responded r /\
        status r = 200 /\ res = tag_names r)
     \/
     (j = 3%nat /\
      attempt_fails
        (net listing_env (requests_made [] + j) (tags_url "library/alpine"))
        = true /\
      res = Raise (failure_of
                     (net listing_env (requests_made [] + j)
                          (tags_url "library/alpine"))))) /\
    (forall names s,
       res = Ok names -> ~ In (JStr s) names ->
       py_in (JStr s) names = false /\
       forall (str_container : json -> string) (a : args) (t2 : trace),
         docker_tag a = "library/alpine"%string ->
         resolved_tag str_container a listing_env ([] ++ t')
           = (Ok (JStr s), t2) ->
         exists t3,
           main str_container a listing_env [] = (Ok tt, t3) /\
           stdout t3 = stdout [] ++ ["tag=" +++ s]).
Proof.
  apply (docker_tags_single_listing "library/alpine" listing_env []).
  discriminate.
Defined.

(** C10 as stated fails: when the first attempt fails and the second
    succeeds, the call returns the tag names after two GET requests, not
    one. *)
Lemma docker_tags_two_requests :
  get_docker_tags "library/alpine" listing_env [] =
    (Ok [JStr "3.19"],
     [EvStderr "url" (JStr (tags_url "library/alpine"));
      EvRequest (tags_url "library/alpine");
      EvStderr "sleep" (JInt 30); EvSleep 30;
      EvRequest (tags_url "library/alpine")]) /\
  requests_made (snd (get_docker_tags "library/alpine" listing_env [])) = 2%nat /\
  ~ (forall (repository : string) (w : env),
       repository <> ""%string ->
       requests_made (snd (get_docker_tags repository w [])) = 1%nat).
Proof.
  split; [reflexivity |]. split; [reflexivity |].
  intros H. specialize (H "library/alpine"%string listing_env).
  assert (Hne : "library/alpine"%string <> ""%string) by discriminate.
  specialize (H Hne). discriminate H.
Qed.

(** ** Repository references *)

Lemma split_char_trailing_sep (c : ascii) (s : string) (n : nat) :
  count_char c s = 0%nat ->
  split_char c (s +++ String c "") (S n) = [s; ""%string].
Proof.
  induction s as [| c' s IH]; intros H.
  - cbn. rewrite Ascii.eqb_refl. now destruct n.
  - cbn in H. cbn [String.append split_char].
    destruct (Ascii.eqb c' c); [discriminate |].
    now rewrite (IH H).
Qed.

Lemma split_char_one_sep (c : ascii) (s : string) :
  count_char c s = 1%nat ->
  exists a b,
    s = (a +++ String c b) /\
    split_char c (s +++ String c "") 2 = [a; b; ""%string].
Proof.
  induction s as [| c' s IH]; intros H; [discriminate |].
  cbn in H. cbn [String.append split_char].
  destruct (Ascii.eqb_spec c' c) as [-> | Hne].
  - injection H as H. exists ""%string, s.
    split; [reflexivity |].
    now rewrite (split_char_trailing_sep c s 0 H).
  - destruct (IH H) as (a & b & -> & Hsplit).
    exists (String c' a), b. split; [reflexivity |].
    now rewrite Hsplit.
Qed.

(** C9. On a string with exactly one ['/'], [_get_repository_path]
    succeeds, gives the string back as the [owner/repo] part and the
    empty string as the path. *)
Theorem repository_path_one_slash (repository : string) :
  count_char "/" repository = 1%nat ->
  _get_repository_path repository = Ok (repository, ""%string).
Proof.
  intros H. unfold _get_repository_path. rewrite H. cbn [Nat.eqb].
  destruct (split_char_one_sep "/" repository H) as (a & b & Hs & Hsplit).
  rewrite Hsplit. cbn. now rewrite Hs.
Qed.

Lemma repository_path_one_slash_witness :
  _get_repository_path "Kamdzy/get-tag" = Ok ("Kamdzy/get-tag"%string, ""%string).
Proof. apply (repository_path_one_slash "Kamdzy/get-tag"). reflexivity. Defined.

(** A full reference: base, then branch, then path. *)
Example reference_decomposition :
  _get_gh_repository_base "owner/repo/docs/api:main@https://ghe.example/api/v3"
    = ["owner/repo/docs/api:main"; "https://ghe.example/api/v3"]%string /\
  _get_repository_branch "owner/repo/docs/api:main"
    = ["owner/repo/docs/api"; "main"]%string /\
  _get_repository_path "owner/repo/docs/api"
    = Ok ("owner/repo"%string, "docs/api"%string) /\
  _get_gh_repository_base "owner/repo"
    = ["owner/repo"; "https://api.github.com"]%string /\
  _get_repository_branch "owner/repo" = ["owner/repo"; ""]%string /\
  _get_repository_path "owner" = Raise ValueError.
Proof. repeat split; reflexivity. Qed.

(** [yearly] and [annually] share one format. *)
Example annually_is_yearly (w : env) (t : trace) :
  get_cron_tag "annually" w t = get_cron_tag "yearly" w t.
Proof. reflexivity. Qed.

Lemma contains_char_count (c : ascii) (s : string) :
  contains_char c s = false <-> count_char c s = 0%nat.
Proof.
  induction s as [| c' s IH]; cbn; [tauto |].
  destruct (Ascii.eqb c' c); cbn; [split; discriminate | exact IH].
Qed.

Lemma split_char_first_sep (c : ascii) (s : string) :
  contains_char c s = true -> exists a b, split_char c s 1 = [a; b].
Proof.
  induction s as [| c' s IH]; cbn; [discriminate |].
  destruct (Ascii.eqb c' c); cbn.
  - intros _. exists ""%string, s. now destruct s.
  - intros H. destruct (IH H) as (a & b & ->). now exists (String c' a), b.
Qed.

Lemma split_char_default (c : ascii) (s d : string) :
  contains_char c s = false -> split_char c (s +++ String c d) 1 = [s; d].
Proof.
  induction s as [| c' s IH]; cbn.
  - intros _. rewrite Ascii.eqb_refl. now destruct d.
  - destruct (Ascii.eqb c' c); cbn; [discriminate |].
    intros H. now rewrite (IH H).
Qed.

(** The base step always yields two parts. *)
Lemma repository_base_parts (repository default_base : string) :
  exists a b, _get_repository_base repository default_base = [a; b].
Proof.
  unfold _get_repository_base.
  destruct (contains_char _SEP_BASE repository) eqn:H; cbn [negb].
  - now apply split_char_first_sep.
  - exists repository, default_base. now apply split_char_default.
Qed.

(** So does the branch step. *)
Lemma repository_branch_parts (repository : string) :
  exists a b, _get_repository_branch repository = [a; b].
Proof.
  unfold _get_repository_branch.
  destruct (contains_char _SEP_BRANCH repository) eqn:H; cbn [negb].
  - now apply split_char_first_sep.
  - exists repository, _DEFAULT_BRANCH. now apply split_char_default.
Qed.

Lemma split_char_two_seps (c : ascii) (s : string) :
  (2 <= count_char c s)%nat -> exists a b d, split_char c s 2 = [a; b; d].
Proof.
  induction s as [| c' s IH]; cbn; [lia |].
  destruct (Ascii.eqb c' c).
  - intros H.
    destruct (split_char_first_sep c s) as (a & b & ->).
    + destruct (contains_char c s) eqn:E; [reflexivity |].
      apply contains_char_count in E. lia.
    + now exists ""%string, a, b.
  - intros H. destruct (IH H) as (a & b & d & ->).
    now exists (String c' a), b, d.
Qed.

(** The path step succeeds as soon as the string holds a ['/']. *)
Lemma repository_path_ok (repository : string) :
  contains_char "/" repository = true ->
  exists p, _get_repository_path repository = Ok p.
Proof.
  intros H.
  destruct (Nat.eq_dec (count_char "/" repository) 1) as [E | E].
  - destruct (split_char_one_sep "/" repository E) as (a & b & _ & Hsplit).
    unfold _get_repository_path. rewrite E. cbn [Nat.eqb].
    rewrite Hsplit. cbn. eauto.
  - assert (H2 : (2 <= count_char "/" repository)%nat).
    { destruct (count_char "/" repository) as [| [| n]] eqn:E0; try lia.
      apply contains_char_count in E0. congruence. }
    unfold _get_repository_path.
    destruct (Nat.eqb_spec 1 (count_char "/" repository)); [lia |].
    destruct (split_char_two_seps "/" repository H2) as (a & b & d & ->).
    cbn. eauto.
Qed.

(** ** List comprehensions *)

Lemma mapR_app {A B} (f : A -> result B) (l1 l2 : list A) (y1 y2 : list B) :
  mapR f l1 = Ok y1 -> mapR f l2 = Ok y2 -> mapR f (l1 ++ l2) = Ok (y1 ++ y2).
Proof.
  revert y1. induction l1 as [| x l1 IH]; intros y1 H1 H2; cbn in *.
  - injection H1 as <-. exact H2.
  - destruct (f x) as [y | e]; cbn in *; [| discriminate].
    destruct (mapR f l1) as [ys | e]; cbn in *; [| discriminate].
    injection H1 as <-. now rewrite (IH ys eq_refl H2).
Qed.

Lemma mapR_rev {A B} (f : A -> result B) (l : list A) (ys : list B) :
  mapR f l = Ok ys -> mapR f (rev l) = Ok (rev ys).
Proof.
  revert ys. induction l as [| x l IH]; intros ys H; cbn in *.
  - now injection H as <-.
  - destruct (f x) as [y | e] eqn:Hx; cbn in *; [| discriminate].
    destruct (mapR f l) as [ys' | e]; cbn in *; [| discriminate].
    injection H as <-. cbn.
    apply mapR_app; [now apply IH |]. cbn. now rewrite Hx.
Qed.

Lemma py_index_last {A} (l : list A) (x : A) :
  py_index (l ++ [x]) (-1) = Ok x.
Proof.
  unfold py_index. rewrite length_app. cbn [List.length].
  replace (-1 <? 0) with true by reflexivity.
  replace (-1 + Z.of_nat (List.length l + 1)) with (Z.of_nat (List.length l))
    by lia.
  destruct (Z.ltb_spec (Z.of_nat (List.length l)) 0); [lia |].
  destruct (Z.leb_spec (Z.of_nat (List.length l + 1))
              (Z.of_nat (List.length l))); [lia |].
  cbn [orb]. rewrite Nat2Z.id, nth_error_app2, Nat.sub_diag by lia.
  reflexivity.
Qed.

(** ** Git-hosting lists *)

Lemma reversed_fields_list (field : string) (r : response)
    (entries vals : list json) (w : env) (t : trace) :
  body r = Some (JArr entries) ->
  mapR (fun entry => py_getitem entry (JStr field)) entries = Ok vals ->
  reversed_fields field r w t = (Ok (rev vals), t).
Proof.
  intros Hb Hv. unfold reversed_fields, bind, read_json, lift.
  rewrite Hb. cbn. now rewrite (mapR_rev _ _ _ Hv).
Qed.

Lemma _urlopen_answered (w : env) (t : trace) (r : response) (url : string) :
  answers_next w t r -> status r = 200 ->
  exists t', _urlopen url _RETRIES w t = (Ok r, t').
Proof.
  intros Hn Hs. eexists. apply _urlopen_success; [apply Hn | exact Hs].
Qed.

Lemma get_gh_tags_list (repository : string) (w : env) (t : trace)
    (r : response) (entries vals : list json) :
  answers_next w t r -> status r = 200 -> body r = Some (JArr entries) ->
  mapR (fun entry => py_getitem entry (JStr "name")) entries = Ok vals ->
  exists t', get_gh_tags repository w t = (Ok (rev vals), t').
Proof.
  intros Hn Hs Hb Hv. unfold get_gh_tags, _get_gh_repository_base.
  destruct (repository_base_parts repository _DEFAULT_GH_BASE)
    as (a & b & ->).
  unfold bind at 1. cbn [lift unpack2]. cbv zeta.
  destruct (_urlopen_answered w t r (b +++ "/repos/" +++ a +++ "/tags") Hn Hs)
    as (t' & Hu).
  unfold bind. rewrite Hu. exists t'.
  now apply reversed_fields_list with (entries := entries).
Qed.

Lemma get_gh_deployments_list (repository : string) (w : env) (t : trace)
    (r : response) (entries vals : list json) :
  answers_next w t r -> status r = 200 -> body r = Some (JArr entries) ->
  mapR (fun entry => py_getitem entry (JStr "sha")) entries = Ok vals ->
  exists t', get_gh_deployments repository w t = (Ok (rev vals), t').
Proof.
  intros Hn Hs Hb Hv. unfold get_gh_deployments, _get_gh_repository_base.
  destruct (repository_base_parts repository _DEFAULT_GH_BASE)
    as (a & b & ->).
  unfold bind at 1. cbn [lift unpack2]. cbv zeta.
  destruct (_urlopen_answered w t r
              (b +++ "/repos/" +++ a +++ "/deployments") Hn Hs) as (t' & Hu).
  unfold bind. rewrite Hu. exists t'.
  now apply reversed_fields_list with (entries := entries).
Qed.

Lemma get_gh_commits_list (repository : string) (w : env) (t : trace)
    (r : response) (entries vals : list json) :
  answers_next w t r -> status r = 200 -> body r = Some (JArr entries) ->
  mapR (fun entry => py_getitem entry (JStr "sha")) entries = Ok vals ->
  contains_char "/" (commits_target repository) = true ->
  exists t', get_gh_commits repository w t = (Ok (rev vals), t').
Proof.
  intros Hn Hs Hb Hv Hp. unfold get_gh_commits.
  unfold commits_target in Hp.
  destruct (repository_base_parts repository _DEFAULT_GH_BASE)
    as (a & b & Hab).
  unfold _get_gh_repository_base in *. rewrite Hab in *. cbn [hd] in Hp.
  unfold bind at 1. cbn [lift unpack2].
  destruct (repository_branch_parts a) as (a' & br & Hbr).
  rewrite Hbr in *. cbn [hd] in Hp.
  unfold bind at 1. cbn [lift unpack2].
  destruct (repository_path_ok a' Hp) as ([a'' path] & Hpath).
  unfold bind at 1. rewrite Hpath. cbn [lift]. cbv zeta.
  destruct (_urlopen_answered w t r
              (b +++ "/repos/" +++ a'' +++ "/commits?sha=" +++ br
                 +++ "&path=" +++ path) Hn Hs) as (t' & Hu).
  unfold bind. rewrite Hu. exists t'.
  now apply reversed_fields_list with (entries := entries).
Qed.

Lemma latest_of_reversed (first : json) (rest : list json) :
  py_index (rev (first :: rest)) (-1) = Ok first.
Proof. cbn [rev]. apply py_index_last. Qed.

Lemma mapR_head {A B} (f : A -> result B) (x : A) (l : list A) (ys : list B) :
  mapR f (x :: l) = Ok ys ->
  exists y ys', ys = y :: ys' /\ f x = Ok y.
Proof.
  cbn. destruct (f x) as [y | e]; cbn; [| discriminate].
  destruct (mapR f l) as [ys' | e]; cbn; [| discriminate].
  intros H. injection H as <-. eauto.
Qed.

(** C5. When the GitHub endpoint answers with the list [entries],
    newest first, [get_gh_tags], [get_gh_deployments] and
    [get_gh_commits] return the field values of the entries in exactly
    the reverse order, and [get_gh_tag], [get_gh_deployment] and
    [get_gh_commit] return the field of the first entry of the response.
    [get_gh_commits] needs a ['/'] in the reference once base and branch
    are cut off; the other two accept any reference. *)
Theorem gh_lists_newest_first_reversed (repository : string) (w : env)
    (t : trace) (r : response) (entries vals : list json) :
  answers_next w t r -> status r = 200 -> body r = Some (JArr entries) ->
  (mapR (fun entry => py_getitem entry (JStr "name")) entries = Ok vals ->
   fst (get_gh_tags repository w t) = Ok (rev vals) /\
   forall e es, entries = e :: es ->
     exists first, py_getitem e (JStr "name") = Ok first /\
                   fst (get_gh_tag repository w t) = Ok first) /\
  (mapR (fun entry => py_getitem entry (JStr "sha")) entries = Ok vals ->
   (fst (get_gh_deployments repository w t) = Ok (rev vals) /\
    forall e es, entries = e :: es ->
      exists first, py_getitem e (JStr "sha") = Ok first /\
                    fst (get_gh_deployment repository w t) = Ok first) /\
   (contains_char "/" (commits_target repository) = true ->
    fst (get_gh_commits repository w t) = Ok (rev vals) /\
    forall e es, entries = e :: es ->
      exists first, py_getitem e (JStr "sha") = Ok first /\
                    fst (get_gh_commit repository w t) = Ok first)).
Proof.
  intros Hn Hs Hb. split; intros Hv; [| split; [| intros Hp]].
  - destruct (get_gh_tags_list repository w t r entries vals Hn Hs Hb Hv)
      as (t' & Heq).
    split; [now rewrite Heq |].
    intros e es ->. destruct (mapR_head _ _ _ _ Hv) as (y & ys & -> & Hy).
    exists y. split; [exact Hy |].
    unfold get_gh_tag, bind. rewrite Heq. cbn [lift fst].
    apply latest_of_reversed.
  - destruct (get_gh_deployments_list repository w t r entries vals
                Hn Hs Hb Hv) as (t' & Heq).
    split; [now rewrite Heq |].
    intros e es ->. destruct (mapR_head _ _ _ _ Hv) as (y & ys & -> & Hy).
    exists y. split; [exact Hy |].
    unfold get_gh_deployment, bind. rewrite Heq. cbn [lift fst].
    apply latest_of_reversed.
  - destruct (get_gh_commits_list repository w t r entries vals
                Hn Hs Hb Hv Hp) as (t' & Heq).
    split; [now rewrite Heq |].
    intros e es ->. destruct (mapR_head _ _ _ _ Hv) as (y & ys & -> & Hy).
    exists y. split; [exact Hy |].
    unfold get_gh_commit, bind. rewrite Heq. cbn [lift fst].
    apply latest_of_reversed.
Qed.

Lemma gh_lists_newest_first_reversed_witness :
  (fst (get_gh_tags "Kamdzy/get-tag" gh_env []) = Ok [JStr "v1"; JStr "v2"] /\
   fst (get_gh_tag "Kamdzy/get-tag" gh_env []) = Ok (JStr "v2")) /\
  (fst (get_gh_commits "Kamdzy/get-tag:main" gh_env [])
     = Ok [JStr "aaa"; JStr "bbb"] /\
   fst (get_gh_commit "Kamdzy/get-tag:main" gh_env []) = Ok (JStr "bbb")).
Proof.
  pose (r := mkResponse 200 (Some (JArr gh_entries))).
  split.
  - destruct (gh_lists_newest_first_reversed "Kamdzy/get-tag" gh_env [] r
                gh_entries [JStr "v2"; JStr "v1"]
                (fun _ => eq_refl) eq_refl eq_refl) as [Htags _].
    destruct (Htags eq_refl) as [Hlist Hlatest].
    split; [exact Hlist |].
    destruct (Hlatest _ _ eq_refl) as (first & Hf & Hl).
    cbn in Hf. injection Hf as <-. exact Hl.
  - destruct (gh_lists_newest_first_reversed "Kamdzy/get-tag:main" gh_env []
                r gh_entries [JStr "bbb"; JStr "aaa"]
                (fun _ => eq_refl) eq_refl eq_refl) as [_ Hsha].
    destruct (Hsha eq_refl) as [_ Hcommits].
    destruct (Hcommits eq_refl) as [Hlist Hlatest].
    split; [exact Hlist |].
    destruct (Hlatest _ _ eq_refl) as (first & Hf & Hl).
    cbn in Hf. injection Hf as <-. exact Hl.
Defined.

(** ** Releases *)

Lemma comprehension_ok {A B} (p : A -> result bool) (f : A -> result B)
    (l : list A) (ys : list B) :
  comprehension p f l = Ok ys <->
  exists kept, filterR p l = Ok kept /\ mapR f kept = Ok ys.
Proof.
  revert ys. induction l as [| x l IH]; intros ys; cbn.
  - split.
    + intros H. injection H as <-. now exists [].
    + intros (kept & Hk & Hm). injection Hk as <-. exact Hm.
  - destruct (p x) as [[|] | e]; cbn.
    + split.
      * destruct (f x) as [y | e] eqn:Hx; cbn; [| discriminate].
        destruct (comprehension p f l) as [ys' | e]; cbn; [| discriminate].
        intros H. injection H as <-.
        destruct (proj1 (IH ys') eq_refl) as (kept & Hk & Hm).
        exists (x :: kept). rewrite Hk. cbn. now rewrite Hx, Hm.
      * intros (kept & Hk & Hm).
        destruct (filterR p l) as [kept' | e]; cbn in Hk; [| discriminate].
        injection Hk as <-. cbn in Hm.
        destruct (f x) as [y | e]; cbn in *; [| discriminate].
        destruct (mapR f kept') as [ys' | e] eqn:Hm'; cbn in Hm;
          [| discriminate].
        injection Hm as <-.
        assert (Hc : comprehension p f l = Ok ys').
        { apply IH. now exists kept'. }
        now rewrite Hc.
    + rewrite IH. split; intros (kept & Hk & Hm).
      * exists kept. now rewrite Hk.
      * destruct (filterR p l) as [kept' | e]; cbn in Hk; [| discriminate].
        injection Hk as <-. now exists kept'.
    + split; [discriminate |]. now intros (kept & Hk & _).
Qed.

Lemma filterR_app {A} (p : A -> result bool) (l1 l2 k1 k2 : list A) :
  filterR p l1 = Ok k1 -> filterR p l2 = Ok k2 ->
  filterR p (l1 ++ l2) = Ok (k1 ++ k2).
Proof.
  revert k1. induction l1 as [| x l1 IH]; intros k1 H1 H2; cbn in *.
  - injection H1 as <-. exact H2.
  - destruct (p x) as [b | e]; cbn in *; [| discriminate].
    destruct (filterR p l1) as [k | e]; cbn in *; [| discriminate].
    injection H1 as <-. rewrite (IH k eq_refl H2). cbn. now destruct b.
Qed.

Lemma filterR_rev {A} (p : A -> result bool) (l k : list A) :
  filterR p l = Ok k -> filterR p (rev l) = Ok (rev k).
Proof.
  revert k. induction l as [| x l IH]; intros k H; cbn in *.
  - now injection H as <-.
  - destruct (p x) as [b | e] eqn:Hx; cbn in *; [| discriminate].
    destruct (filterR p l) as [k' | e]; cbn in *; [| discriminate].
    injection H as <-.
    replace (rev (if b then x :: k' else k'))
      with (rev k' ++ (if b then [x] else [])).
    + apply filterR_app; [now apply IH |]. cbn. rewrite Hx. cbn.
      now destruct b.
    + destruct b; cbn; [reflexivity | apply app_nil_r].
Qed.

Lemma py_reversed_iter (data : json) :
  py_reversed data = (entries <~ py_iter data ;; Ok (rev entries)).
Proof. now destruct data. Qed.

(** Filtering while walking the reversed response gives what filtering
    first and reversing last gives. *)
Lemma comprehension_rev {A B} (p : A -> result bool) (f : A -> result B)
    (l : list A) (ys : list B) :
  comprehension p f (rev l) = Ok ys <->
  (kept <~ filterR p l ;; vals <~ mapR f kept ;; Ok (rev vals)) = Ok ys.
Proof.
  rewrite comprehension_ok. split.
  - intros (kept & Hk & Hm).
    apply filterR_rev in Hk. rewrite rev_involutive in Hk.
    rewrite Hk. cbn. apply mapR_rev in Hm. rewrite Hm. cbn.
    now rewrite rev_involutive.
  - destruct (filterR p l) as [kept | e] eqn:Hk; cbn; [| discriminate].
    destruct (mapR f kept) as [vals | e] eqn:Hm; cbn; [| discriminate].
    intros H. injection H as <-.
    exists (rev kept). split; [now apply filterR_rev | now apply mapR_rev].
Qed.

Lemma get_gh_releases_1_answered (repository : string) (w : env) (t : trace)
    (r : response) (data : json) :
  answers_next w t r -> status r = 200 -> body r = Some data ->
  exists t',
    get_gh_releases_1 repository w t =
      ((results <~ py_reversed data ;;
        comprehension release_kept release_tag results), t').
Proof.
  intros Hn Hs Hb. unfold get_gh_releases_1, _get_gh_repository_base.
  destruct (repository_base_parts repository _DEFAULT_GH_BASE)
    as (a & b & ->).
  unfold bind at 1. cbn [lift unpack2]. cbv zeta.
  destruct (_urlopen_answered w t r
              (b +++ "/repos/" +++ a +++ "/releases") Hn Hs) as (t' & Hu).
  unfold bind, read_json, lift. rewrite Hu, Hb. exists t'. reflexivity.
Qed.




(** ** Package index *)

(** The order of [str]: code point by code point. *)
Lemma string_leb_trans (a b c : string) :
  String.leb a b = true -> String.leb b c = true -> String.leb a c = true.
Proof.
  unfold String.leb.
  destruct (String.compare a b) eqn:Hab; try discriminate; intros _;
    destruct (String.compare b c) eqn:Hbc; try discriminate; intros _.
  - apply String.compare_eq_iff in Hab. subst. now rewrite Hbc.
  - apply String.compare_eq_iff in Hab. subst. now rewrite Hbc.
  - apply String.compare_eq_iff in Hbc. subst. now rewrite Hab.
  - apply OrderedTypeEx.String_as_OT.cmp_lt in Hab, Hbc.
    pose proof (OrderedTypeEx.String_as_OT.lt_trans _ _ _ Hab Hbc) as Hac.
    apply OrderedTypeEx.String_as_OT.cmp_lt in Hac.
    unfold OrderedTypeEx.String_as_OT.cmp in Hac. now rewrite Hac.
Qed.

Lemma string_ltb_leb (a b : string) :
  String.ltb a b = true -> String.leb a b = true.
Proof. unfold String.ltb, String.leb. now destruct (String.compare a b). Qed.

Lemma string_nltb_leb (a b : string) :
  String.ltb a b = false -> String.leb b a = true.
Proof.
  unfold String.ltb, String.leb. rewrite (String.compare_antisym b a).
  now destruct (String.compare a b).
Qed.

Section SortByUploadTime.

Variable time_of : string -> string.

Lemma insert_version_perm (x : string) (l : list string) :
  Permutation (insert_version time_of x l) (x :: l).
Proof.
  induction l as [| y l IH]; cbn; [reflexivity |].
  destruct (String.ltb (time_of y) (time_of x)); [| reflexivity].
  rewrite IH. apply perm_swap.
Qed.

Lemma sort_versions_perm (l : list string) :
  Permutation (sort_versions time_of l) l.
Proof.
  induction l as [| x l IH]; cbn; [reflexivity |].
  rewrite insert_version_perm. now constructor.
Qed.

Lemma insert_version_sorted (x : string) (l : list string) :
  StronglySorted (uploaded_before time_of) l ->
  StronglySorted (uploaded_before time_of) (insert_version time_of x l).
Proof.
  induction l as [| y l IH]; intros Hs; cbn.
  - repeat constructor.
  - apply StronglySorted_inv in Hs as [Hs Hy].
    destruct (String.ltb (time_of y) (time_of x)) eqn:Hlt.
    + constructor; [now apply IH |].
      apply (Permutation_Forall (Permutation_sym (insert_version_perm x l))).
      constructor; [now apply string_ltb_leb | exact Hy].
    + apply string_nltb_leb in Hlt.
      constructor; [now constructor |].
      constructor; [exact Hlt |].
      eapply Forall_impl; [| exact Hy].
      intros z Hz. unfold uploaded_before in *.
      eapply string_leb_trans; eassumption.
Qed.

Lemma sort_versions_sorted (l : list string) :
  StronglySorted (uploaded_before time_of) (sort_versions time_of l).
Proof.
  induction l as [| x l IH]; cbn; [constructor |].
  now apply insert_version_sorted.
Qed.

Lemma insert_by_key_keyed (x : string) (l : list string) :
  insert_by_key (keyed time_of x) (map (keyed time_of) l)
    = Ok (map (keyed time_of) (insert_version time_of x l)).
Proof.
  induction l as [| y l IH]; cbn; [reflexivity |].
  destruct (String.ltb (time_of y) (time_of x)); [| reflexivity].
  fold (keyed time_of x). rewrite IH. reflexivity.
Qed.

Lemma sort_by_key_keyed (l : list string) :
  sort_by_key (map (keyed time_of) l)
    = Ok (map (keyed time_of) (sort_versions time_of l)).
Proof.
  induction l as [| x l IH]; cbn; [reflexivity |].
  fold (keyed time_of x). rewrite IH. cbn. apply insert_by_key_keyed.
Qed.

End SortByUploadTime.

Lemma get_pip_versions_2_answered (package : string) (w : env) (t : trace)
    (r : response) (data : json) :
  answers_next w t r -> status r = 200 -> body r = Some data ->
  exists t', get_pip_versions_2 package w t = (pip_versions_of data, t').
Proof.
  intros Hn Hs Hb. unfold get_pip_versions_2. cbv zeta.
  destruct (_urlopen_answered w t r
              ("https://pypi.org/pypi/" +++ package +++ "/json") Hn Hs)
    as (t' & Hu).
  exists t'. unfold bind, read_json, lift. rewrite Hu, Hb. cbn [json_loads].
  unfold pip_versions_of, pip_keep, pip_key.
  destruct (py_getitem data (JStr "releases")) as [releases | e];
    cbn [rbind]; [| reflexivity].
  destruct (py_iter releases) as [candidates | e];
    cbn [rbind]; [| reflexivity].
  match goal with
  | |- context [filterR ?p candidates] =>
      destruct (filterR p candidates) as [versions | e]
  end; reflexivity.
Qed.

Section ReleaseTableFacts.

Variable releases : list (string * json).

Lemma lookup_key (v : string) :
  In v (map fst releases) -> exists val, lookup v releases = Some val.
Proof.
  induction releases as [| [k x] m IH]; cbn; [tauto |].
  intros [-> | Hin].
  - rewrite String.eqb_refl. eauto.
  - destruct (String.eqb v k); eauto.
Qed.

Lemma py_index_0 {A} (x : A) (l : list A) : py_index (x :: l) 0 = Ok x.
Proof.
  unfold py_index. cbn [Z.ltb Z.compare List.length].
  destruct (Z.leb_spec (Z.of_nat (S (List.length l))) 0); [lia |].
  reflexivity.
Qed.

Hypothesis table : release_table releases.

Lemma pip_keep_listed (v : string) :
  In v (map fst releases) ->
  pip_keep (JObj releases) (JStr v) = Ok (listed releases v).
Proof.
  intros Hin. destruct (lookup_key v Hin) as (val & Hl).
  pose proof (table v val Hl) as Hshape.
  unfold pip_keep, listed, has_files, yanked, first_file, release_files.
  cbn [py_getitem]. rewrite Hl. cbn [rbind].
  destruct val as [| | | | [| first rest] |]; cbn in Hshape; try contradiction;
    [reflexivity |].
  destruct first as [| | | | | file]; try contradiction.
  destruct Hshape as [(y & Hy) _].
  cbn [truthy py_getitem]. rewrite py_index_0. cbn [rbind py_getitem].
  rewrite Hy. reflexivity.
Qed.

Lemma pip_key_upload_time (v : string) :
  In v (map fst releases) -> listed releases v = true ->
  pip_key (JObj releases) (JStr v) = Ok (JStr (upload_time releases v)).
Proof.
  intros Hin. destruct (lookup_key v Hin) as (val & Hl).
  pose proof (table v val Hl) as Hshape.
  unfold pip_key, listed, has_files, upload_time, first_file, release_files.
  cbn [py_getitem]. rewrite Hl. cbn [rbind].
  destruct val as [| | | | [| first rest] |]; cbn in Hshape; try contradiction;
    [discriminate |].
  destruct first as [| | | | | file]; try contradiction.
  destruct Hshape as [_ (ts & Hts)]. intros _.
  cbn [py_getitem]. rewrite py_index_0. cbn [rbind py_getitem].
  rewrite Hts. reflexivity.
Qed.

Lemma filterR_versions (ks : list string) :
  incl ks (map fst releases) ->
  filterR (pip_keep (JObj releases)) (map JStr ks)
    = Ok (map JStr (filter (listed releases) ks)).
Proof.
  induction ks as [| k ks IH]; intros Hincl; cbn; [reflexivity |].
  rewrite pip_keep_listed by (apply Hincl; now left).
  rewrite IH by (intros x Hx; apply Hincl; now right).
  cbn. now destruct (listed releases k).
Qed.

Lemma keyed_versions (vs : list string) :
  incl vs (map fst releases) -> Forall (fun v => listed releases v = true) vs ->
  mapR (fun x => k <~ pip_key (JObj releases) x ;; Ok (k, x)) (map JStr vs)
    = Ok (map (keyed (upload_time releases)) vs).
Proof.
  induction vs as [| v vs IH]; intros Hincl Hall; cbn; [reflexivity |].
  inversion Hall as [| ? ? Hv Hvs]; subst.
  rewrite pip_key_upload_time by (auto; apply Hincl; now left).
  rewrite IH by (auto; intros x Hx; apply Hincl; now right).
  reflexivity.
Qed.

Lemma py_sorted_versions (vs : list string) :
  incl vs (map fst releases) -> Forall (fun v => listed releases v = true) vs ->
  py_sorted (pip_key (JObj releases)) (map JStr vs)
    = Ok (map JStr (sort_versions (upload_time releases) vs)).
Proof.
  intros Hincl Hall. unfold py_sorted.
  rewrite keyed_versions by assumption. cbn [rbind].
  rewrite sort_by_key_keyed. cbn [rbind].
  now rewrite map_map.
Qed.

Lemma pip_versions_of_table (data : json) :
  py_getitem data (JStr "releases") = Ok (JObj releases) ->
  pip_versions_of data = Ok (map JStr (listed_versions releases)).
Proof.
  intros Hr. unfold pip_versions_of. rewrite Hr. cbn [rbind py_iter].
  unfold keys. rewrite <- (map_map fst JStr).
  rewrite filterR_versions by apply incl_refl. cbn [rbind].
  apply py_sorted_versions.
  - intros x Hx. now apply filter_In in Hx.
  - apply Forall_forall. intros x Hx. now apply filter_In in Hx.
Qed.

End ReleaseTableFacts.

(** C4, as the code has it.  When the index answers with a release
    table, [get_pip_versions_2] returns the versions that have at least
    one file and whose first file is not marked yanked: every yanked
    release and every release without files is left out, everything else
    is kept, and the list is ordered by ascending upload time of the
    first file, the ISO 8601 strings compared as strings.
    [get_pip_version_2] returns the last element of that list. *)
Theorem pip_versions_listed_sorted (package : string) (w : env) (t : trace)
    (r : response) (data : json) (releases : list (string * json)) :
  answers_next w t r -> status r = 200 -> body r = Some data ->
  py_getitem data (JStr "releases") = Ok (JObj releases) ->
  release_table releases ->
  let versions := listed_versions releases in
  fst (get_pip_versions_2 package w t) = Ok (map JStr versions) /\
  (forall v,
     In v versions <->
     In v (map fst releases) /\
     has_files releases v = true /\ yanked releases v = false) /\
  Permutation versions (filter (listed releases) (map fst releases)) /\
  StronglySorted (uploaded_before (upload_time releases)) versions /\
  (versions <> [] ->
   fst (get_pip_version_2 package w t) = Ok (JStr (last versions ""%string))).
Proof.
  intros Hn Hs Hb Hr Htable versions.
  destruct (get_pip_versions_2_answered package w t r data Hn Hs Hb)
    as (t' & Heq).
  rewrite (pip_versions_of_table releases Htable data Hr) in Heq.
  fold versions in Heq.
  assert (Hperm : Permutation versions
                    (filter (listed releases) (map fst releases)))
    by apply sort_versions_perm.
  split; [now rewrite Heq |]. split; [| split; [exact Hperm | split]].
  - intros v. split.
    + intros Hin. apply (Permutation_in _ Hperm) in Hin.
      apply filter_In in Hin as [Hk Hl]. unfold listed in Hl.
      apply andb_true_iff in Hl as [Hf Hy].
      apply negb_true_iff in Hy. auto.
    + intros (Hk & Hf & Hy).
      apply (Permutation_in _ (Permutation_sym Hperm)).
      apply filter_In. split; [exact Hk |].
      unfold listed. now rewrite Hf, Hy.
  - apply sort_versions_sorted.
  - intros Hne. unfold get_pip_version_2, bind. rewrite Heq. cbn [lift fst].
    rewrite (app_removelast_last ""%string Hne) at 1.
    rewrite map_app. apply py_index_last.
Qed.

Lemma sample_release_table : release_table sample_releases.
Proof.
  intros v val. cbn.
  repeat match goal with
         | |- context [String.eqb v ?k] => destruct (String.eqb v k)
         end;
    intros H; inversion H; subst; cbn; eauto.
Qed.

Lemma pip_versions_listed_sorted_witness :
  let versions := listed_versions sample_releases in
  fst (get_pip_versions_2 "demo" index_env []) = Ok (map JStr versions) /\
  (forall v,
     In v versions <->
     In v (map fst sample_releases) /\
     has_files sample_releases v = true /\ yanked sample_releases v = false) /\
  Permutation versions
    (filter (listed sample_releases) (map fst sample_releases)) /\
  StronglySorted (uploaded_before (upload_time sample_releases)) versions /\
  (versions <> [] ->
   fst (get_pip_version_2 "demo" index_env [])
     = Ok (JStr (last versions ""%string))).
Proof.
  apply (pip_versions_listed_sorted "demo" index_env []
           (mkResponse 200 (Some sample_index)) sample_index sample_releases).
  - intros url. reflexivity.
  - reflexivity.
  - reflexivity.
  - reflexivity.
  - exact sample_release_table.
Defined.

(** C4 as stated fails: release [0.9.0] is not marked yanked, yet it is
    not in the returned list, because it has no files. *)
Lemma pip_release_without_files_left_out :
  fst (get_pip_versions_2 "demo" index_env [])
    = Ok [JStr "1.0.0"; JStr "1.1.0"] /\
  In "0.9.0"%string (map fst sample_releases) /\
  yanked sample_releases "0.9.0" = false /\
  ~ (forall v,
       In v (map fst sample_releases) -> yanked sample_releases v = false ->
       In (JStr v) [JStr "1.0.0"; JStr "1.1.0"]).
Proof.
  split; [reflexivity |]. split; [cbn; tauto |]. split; [reflexivity |].
  intros H. specialize (H "0.9.0"%string).
  destruct H as [H | [H | []]]; [cbn; tauto | reflexivity | |]; discriminate H.
Qed.

(** * Further properties *)

(** ** Resilient fetcher *)

Lemma sleeps_app (t u : trace) : sleeps (t ++ u) = sleeps t ++ sleeps u.
Proof.
  induction t as [| ev t IH]; [reflexivity |].
  destruct ev; cbn; now rewrite IH.
Qed.

Lemma announced_no_sleep (url : string) (k : nat) :
  sleeps (announced url k []) = [].
Proof. unfold announced. now destruct (Nat.eqb _RETRIES k). Qed.

Lemma _urlopen_sleeps (url : string) (k : nat) (w : env) (t : trace) :
  exists (j : nat) (t' : trace),
    snd (_urlopen url k w t) = t ++ t' /\
    (j <= k)%nat /\
    requests t' = repeat (EvRequest url) (S j) /\
    sleeps t' = map backoff (retries_used k j).
Proof.
  revert t. induction k as [| k IH]; intros t.
  - exists 0%nat, (announced url 0 [] ++ [EvRequest url]).
    rewrite _urlopen_eq.
    destruct (attempt_fails (net w (requests_made (announced url 0 t)) url))
      eqn:Hf.
    + rewrite (attempt_fail _ _ _ Hf). cbn [snd].
      rewrite (announced_app url 0 t), <- app_assoc. now repeat split.
    + destruct (attempt_ok _ _ _ Hf) as (r & _ & _ & ->). cbn [snd].
      rewrite (announced_app url 0 t), <- app_assoc. now repeat split.
  - rewrite _urlopen_eq.
    destruct (attempt_fails
                (net w (requests_made (announced url (S k) t)) url)) eqn:Hf.
    + rewrite (attempt_fail _ _ _ Hf).
      set (u := [EvStderr "sleep" (JInt (backoff (S k)));
                 EvSleep (backoff (S k))]).
      destruct (IH ((announced url (S k) t ++ [EvRequest url]) ++ u))
        as (j & t' & Heq & Hj & Hreq & Hsl).
      exists (S j), (announced url (S k) [] ++ [EvRequest url] ++ u ++ t').
      rewrite Heq, (announced_app url (S k) t), <- !app_assoc.
      destruct (announced_quiet url (S k)) as [Hq _].
      split; [reflexivity |]. split; [lia |]. split.
      * rewrite !requests_app, Hq, Hreq. reflexivity.
      * rewrite !sleeps_app, announced_no_sleep, Hsl. reflexivity.
    + destruct (attempt_ok _ _ _ Hf) as (r & _ & _ & ->). cbn [snd].
      exists 0%nat, (announced url (S k) [] ++ [EvRequest url]).
      rewrite (announced_app url (S k) t), <- app_assoc.
      destruct (announced_quiet url (S k)) as [Hq _].
      split; [reflexivity |]. split; [lia |]. split.
      * rewrite requests_app, Hq. reflexivity.
      * rewrite sleeps_app, announced_no_sleep. reflexivity.
Qed.

(** X1. In every world a fetch stops at the first attempt that does not
    fail.  With [j] the number of failed attempts before it, [j] is at
    most 3, [S j] requests go out, all to the given URL, the pauses are
    the first [j] of 30, 60 and 90 seconds, and nothing is written to
    standard output.  The fetch returns the response of attempt [j], or,
    when [j] is 3 and that attempt fails too, raises its failure. *)
Theorem urlopen_stops_at_first_success (url : string) (w : env) (t : trace) :
  exists (j : nat) (t' : trace) (res : result response),
    _urlopen url _RETRIES w t = (res, t ++ t') /\
    (j <= 3)%nat /\
    requests t' = repeat (EvRequest url) (S j) /\
    sleeps t' = firstn j [30; 60; 90] /\
    stdout t' = [] /\
    (forall i, (i < j)%nat ->
       attempt_fails (net w (requests_made t + i) url) = true) /\
    match res with
    | Ok r => net w (requests_made t + j) url = Responded r /\ status r = 200
    | Raise e =>
        j = 3%nat /\
        attempt_fails (net w (requests_made t + j) url) = true /\
        e = failure_of (net w (requests_made t + j) url)
    end.
Proof.
  destruct (_urlopen_spec url _RETRIES w t)
    as (j & t' & res & Heq & Hj & Hreq & Hout & Hfail & Hres).
  destruct (_urlopen_sleeps url _RETRIES w t) as (j2 & t2 & Hs & Hj2 & Hr2 & Hsl).
  rewrite Heq in Hs. cbn [snd] in Hs. apply app_inv_head in Hs. subst t2.
  assert (j2 = j).
  { rewrite Hreq in Hr2. apply (f_equal (@List.length event)) in Hr2.
    rewrite !repeat_length in Hr2. lia. }
  subst j2.
  exists j, t', res. repeat (split; [assumption |]).
  split; [| auto].
  rewrite Hsl. unfold _RETRIES in Hj.
  destruct j as [| [| [| [| j]]]]; reflexivity.
Qed.

Lemma urlopen_stops_at_first_success_witness :
  exists (j : nat) (t' : trace) (res : result response),
    _urlopen "https://example.org" _RETRIES retry_law_env [] = (res, [] ++ t') /\
    (j <= 3)%nat /\
    requests t' = repeat (EvRequest "https://example.org") (S j) /\
    sleeps t' = firstn j [30; 60; 90] /\
    stdout t' = [] /\
    (forall i, (i < j)%nat ->
       attempt_fails
         (net retry_law_env (requests_made [] + i) "https://example.org")
         = true) /\
    match res with
    | Ok r =>
        net retry_law_env (requests_made [] + j) "https://example.org"
          = Responded r /\ status r = 200
    | Raise e =>
        j = 3%nat /\
        attempt_fails
          (net retry_law_env (requests_made [] + j) "https://example.org")
          = true /\
        e = failure_of
              (net retry_law_env (requests_made [] + j) "https://example.org")
    end.
Proof.
  exact (urlopen_stops_at_first_success "https://example.org" retry_law_env []).
Defined.

(** ** Repository references *)

Lemma string_app_assoc (a b c : string) :
  ((a +++ b) +++ c) = (a +++ (b +++ c)).
Proof. induction a as [| x a IH]; cbn; [reflexivity | now rewrite IH]. Qed.

Lemma count_char_app (c : ascii) (a b : string) :
  count_char c (a +++ b) = (count_char c a + count_char c b)%nat.
Proof.
  induction a as [| x a IH]; cbn; [reflexivity |].
  destruct (Ascii.eqb x c); cbn; now rewrite IH.
Qed.

Lemma split_char_none (c : ascii) (s : string) (n : nat) :
  count_char c s = 0%nat -> split_char c s n = [s].
Proof.
  induction s as [| c' s IH]; intros H; [reflexivity |].
  cbn in H |- *. destruct n; [reflexivity |].
  destruct (Ascii.eqb c' c); [discriminate |].
  now rewrite (IH H).
Qed.

Lemma split_char_first (c : ascii) (s : string) :
  contains_char c s = true ->
  exists a b,
    split_char c s 1 = [a; b] /\ s = (a +++ String c b) /\
    contains_char c a = false.
Proof.
  induction s as [| c' s IH]; cbn; [discriminate |].
  destruct (Ascii.eqb_spec c' c) as [-> | Hne]; cbn.
  - intros _. exists ""%string, s. split; [now destruct s | now split].
  - intros H. destruct (IH H) as (a & b & -> & Hs & Ha).
    exists (String c' a), b. cbn. rewrite <- Hs.
    apply Ascii.eqb_neq in Hne. rewrite Hne. cbn. now repeat split.
Qed.

Lemma split_char_second (c : ascii) (s : string) :
  (2 <= count_char c s)%nat ->
  exists a b d,
    split_char c s 2 = [a; b; d] /\
    s = (a +++ String c (b +++ String c d)) /\
    count_char c a = 0%nat /\ count_char c b = 0%nat.
Proof.
  induction s as [| c' s IH]; cbn; [lia |].
  destruct (Ascii.eqb_spec c' c) as [-> | Hne].
  - intros H.
    destruct (split_char_first c s) as (a & b & -> & Hs & Ha).
    + destruct (contains_char c s) eqn:E; [reflexivity |].
      apply contains_char_count in E. lia.
    + exists ""%string, a, b. apply contains_char_count in Ha.
      cbn. rewrite <- Hs. now repeat split.
  - intros H. destruct (IH H) as (a & b & d & -> & Hs & Ha & Hb).
    exists (String c' a), b, d. cbn. rewrite <- Hs.
    apply Ascii.eqb_neq in Hne. rewrite Hne. now repeat split.
Qed.

(** X2. The base step and the branch step always return two parts, the
    first free of the separator.  When the reference holds the separator
    the two parts are what stands before and after its first occurrence,
    so joining them with the separator gives the reference back; when it
    does not, the reference is returned whole with the default
    ([default_base], respectively the empty branch). *)
Theorem repository_base_branch_round_trip
    (repository default_base : string) :
  (exists a b,
     _get_repository_base repository default_base = [a; b] /\
     contains_char _SEP_BASE a = false /\
     if contains_char _SEP_BASE repository
     then repository = (a +++ String _SEP_BASE b)
     else a = repository /\ b = default_base) /\
  (exists a b,
     _get_repository_branch repository = [a; b] /\
     contains_char _SEP_BRANCH a = false /\
     if contains_char _SEP_BRANCH repository
     then repository = (a +++ String _SEP_BRANCH b)
     else a = repository /\ b = ""%string).
Proof.
  split.
  - unfold _get_repository_base.
    destruct (contains_char _SEP_BASE repository) eqn:H; cbn [negb].
    + destruct (split_char_first _ _ H) as (a & b & Hs & He & Ha).
      exists a, b. auto.
    + exists repository, default_base.
      rewrite (split_char_default _ _ default_base H). auto.
  - unfold _get_repository_branch.
    destruct (contains_char _SEP_BRANCH repository) eqn:H; cbn [negb].
    + destruct (split_char_first _ _ H) as (a & b & Hs & He & Ha).
      exists a, b. auto.
    + exists repository, ""%string.
      rewrite (split_char_default _ _ _DEFAULT_BRANCH H). auto.
Qed.

Lemma repository_path_no_slash (repository : string) :
  contains_char "/" repository = false ->
  _get_repository_path repository = Raise ValueError.
Proof.
  intros H. apply contains_char_count in H.
  unfold _get_repository_path. rewrite H. cbn [Nat.eqb].
  now rewrite (split_char_none _ _ 2 H).
Qed.

(** X3. [_get_repository_path] raises [ValueError] exactly on the
    strings without a ['/']; on every other string it returns a pair. *)
Theorem repository_path_fails_iff_no_slash (repository : string) :
  (_get_repository_path repository = Raise ValueError <->
   contains_char "/" repository = false) /\
  ((exists p, _get_repository_path repository = Ok p) <->
   contains_char "/" repository = true).
Proof.
  pose proof (repository_path_no_slash repository) as Hno.
  pose proof (repository_path_ok repository) as Hyes.
  destruct (contains_char "/" repository).
  - destruct (Hyes eq_refl) as (p & Hp). rewrite Hp.
    split; split; try discriminate; eauto.
  - rewrite (Hno eq_refl).
    split; split; try reflexivity; try discriminate.
    intros (p & Hp). discriminate.
Qed.

(** X4. Whenever [_get_repository_path] returns [(r, p)], [r] holds
    exactly one ['/'].  Either the input has one ['/'], and then [r] is
    the input and [p] is empty, or it has more, and then the input is [r],
    a ['/'] and [p]: the cut is at the second ['/']. *)
Theorem repository_path_round_trip (repository r p : string) :
  _get_repository_path repository = Ok (r, p) ->
  count_char "/" r = 1%nat /\
  ((count_char "/" repository = 1%nat /\ r = repository /\ p = ""%string) \/
   ((2 <= count_char "/" repository)%nat /\
    repository = (r +++ "/" +++ p))).
Proof.
  intros H.
  destruct (count_char "/" repository) as [| [| n]] eqn:Hc.
  - apply contains_char_count in Hc.
    apply repository_path_no_slash in Hc. congruence.
  - destruct (split_char_one_sep "/" repository Hc) as (a & b & Hs & Hsplit).
    unfold _get_repository_path in H. rewrite Hc in H. cbn [Nat.eqb] in H.
    rewrite Hsplit in H. cbn in H. injection H as <- <-.
    rewrite <- Hs. split; [exact Hc | left; auto].
  - destruct (split_char_second "/" repository) as (a & b & d & Hsplit & Hs & Ha & Hb);
      [lia |].
    unfold _get_repository_path in H. rewrite Hc in H. cbn [Nat.eqb] in H.
    rewrite Hsplit in H. cbn in H. injection H as <- <-.
    split.
    + rewrite count_char_app. cbn. rewrite Ha, Hb. reflexivity.
    + right. split; [lia |]. rewrite Hs, string_app_assoc. reflexivity.
Qed.

Lemma repository_path_round_trip_witness :
  count_char "/" "owner/repo" = 1%nat /\
  ((count_char "/" "owner/repo/docs/api" = 1%nat /\
    "owner/repo"%string = "owner/repo/docs/api"%string /\
    "docs/api"%string = ""%string) \/
   ((2 <= count_char "/" "owner/repo/docs/api")%nat /\
    "owner/repo/docs/api"%string = ("owner/repo" +++ "/" +++ "docs/api"))).
Proof.
  apply (repository_path_round_trip "owner/repo/docs/api" "owner/repo"
           "docs/api").
  reflexivity.
Defined.

Lemma contains_char_app (c : ascii) (a b : string) :
  contains_char c (a +++ b) = contains_char c a || contains_char c b.
Proof.
  induction a as [| x a IH]; cbn; [reflexivity |].
  now rewrite IH, orb_assoc.
Qed.

Lemma string_app_nil (a : string) : (a +++ "") = a.
Proof. induction a as [| x a IH]; cbn; [reflexivity | now rewrite IH]. Qed.

(** Cutting an optional suffix off at its separator. *)
Lemma cut_suffix (c : ascii) (front default : string) (part : option string) :
  contains_char c front = false ->
  let s := front +++ suffix c part in
  split_char c (if negb (contains_char c s)
                then s +++ String c default else s) 1
    = [front; or_default part default].
Proof.
  intros Hf s. subst s. destruct part as [x |]; cbn [suffix or_default].
  - rewrite contains_char_app, Hf. cbn. rewrite Ascii.eqb_refl. cbn.
    now apply split_char_default.
  - rewrite string_app_nil, Hf. cbn. now apply split_char_default.
Qed.

Lemma split_char_three (c : ascii) (a b d : string) :
  count_char c a = 0%nat -> count_char c b = 0%nat ->
  split_char c (a +++ String c (b +++ String c d)) 2 = [a; b; d].
Proof.
  intros Ha Hb. induction a as [| x a IH]; cbn in *.
  - rewrite Ascii.eqb_refl. apply contains_char_count in Hb.
    now rewrite (split_char_default c b d Hb).
  - destruct (Ascii.eqb x c); [discriminate |]. now rewrite (IH Ha).
Qed.

Lemma free_of_contains (seps : list ascii) (s : string) (c : ascii) :
  free_of seps s = true -> In c seps -> contains_char c s = false.
Proof.
  unfold free_of. rewrite forallb_forall. intros H Hin.
  apply negb_true_iff. now apply H.
Qed.

(** The path step on [owner/name] with an optional path. *)
Lemma repository_path_of_parts (owner name : string) (path : option string) :
  contains_char "/" owner = false -> contains_char "/" name = false ->
  _get_repository_path (owner +++ String "/" (name +++ suffix "/" path))
    = Ok (owner +++ "/" +++ name, or_default path ""%string).
Proof.
  intros Ho Hn. apply contains_char_count in Ho, Hn.
  unfold _get_repository_path. destruct path as [p |]; cbn [suffix or_default].
  - assert (Hc : count_char "/" (owner +++ String "/" (name +++ String "/" p))
                 = S (S (count_char "/" p))).
    { rewrite count_char_app. cbn. rewrite count_char_app. cbn. lia. }
    rewrite Hc. cbn [Nat.eqb].
    rewrite (split_char_three "/" owner name p Ho Hn). reflexivity.
  - rewrite string_app_nil.
    assert (Hc : count_char "/" (owner +++ String "/" name) = 1%nat).
    { rewrite count_char_app. cbn. lia. }
    rewrite Hc. cbn [Nat.eqb].
    rewrite string_app_assoc. cbn [String.append].
    rewrite (split_char_three "/" owner name "" Ho Hn). reflexivity.
Qed.

Lemma reversed_fields_trace (field : string) (r : response) (w : env)
    (t : trace) :
  snd (reversed_fields field r w t) = t.
Proof.
  unfold reversed_fields, bind, read_json, lift.
  now destruct (json_loads (body r)).
Qed.

(** X5. A well-formed reference written as [owner/name], then optionally
    [/path], [:branch] and [@base], is taken apart in the order base,
    branch, path, with the defaults filling the absent parts:
    [get_gh_commits] sends every request to the commits endpoint of
    exactly these parts.  A [':'] inside the base does no harm, the base
    being cut off first. *)
Theorem gh_commits_requests_reference (r : reference) (w : env) (t : trace) :
  well_formed_reference r = true ->
  exists (j : nat) (t' : trace),
    snd (get_gh_commits (render_reference r) w t) = t ++ t' /\
    (j <= 3)%nat /\
    requests t' = repeat (EvRequest (gh_commits_url r)) (S j).
Proof.
  intros Hwf. unfold well_formed_reference in Hwf.
  apply andb_true_iff in Hwf as [Hwf Hbranch].
  apply andb_true_iff in Hwf as [Hwf Hpath].
  apply andb_true_iff in Hwf as [Howner Hname].
  set (core := ref_owner r
                 +++ String "/" (ref_name r +++ suffix "/" (ref_path r))).
  set (front := core +++ suffix _SEP_BRANCH (ref_branch r)).
  assert (Hcore : forall c, In c [":"; "@"]%char ->
                            contains_char c core = false).
  { intros c Hc. subst core. rewrite contains_char_app. cbn [contains_char].
    rewrite contains_char_app.
    rewrite (free_of_contains _ _ c Howner) by (cbn in *; tauto).
    rewrite (free_of_contains _ _ c Hname) by (cbn in *; tauto).
    assert (Hsep : Ascii.eqb "/" c = false)
      by (destruct Hc as [<- | [<- | []]]; reflexivity).
    rewrite Hsep. cbn [orb].
    destruct (ref_path r) as [p |]; cbn [suffix or_default] in *;
      [| reflexivity].
    cbn [contains_char]. rewrite Hsep.
    now rewrite (free_of_contains _ _ c Hpath). }
  assert (Hfront : contains_char _SEP_BASE front = false).
  { subst front. rewrite contains_char_app, Hcore by (cbn; tauto).
    destruct (ref_branch r) as [b |]; cbn [suffix or_default] in *;
      [| reflexivity].
    cbn. apply (free_of_contains _ _ _ Hbranch). cbn. tauto. }
  unfold get_gh_commits, render_reference, _get_gh_repository_base,
    _get_repository_base.
  fold core. fold front.
  rewrite (cut_suffix _SEP_BASE front _DEFAULT_GH_BASE (ref_base r) Hfront).
  unfold bind at 1. cbn [lift unpack2].
  unfold _get_repository_branch. subst front.
  rewrite (cut_suffix _SEP_BRANCH core _DEFAULT_BRANCH (ref_branch r))
    by (apply Hcore; cbn; tauto).
  unfold bind at 1. cbn [lift unpack2].
  subst core.
  rewrite repository_path_of_parts
    by (eapply free_of_contains; [eassumption | cbn; tauto]).
  unfold bind at 1. cbn [lift]. cbv zeta. fold (gh_commits_url r).
  destruct (_urlopen_spec (gh_commits_url r) _RETRIES w t)
    as (j & t' & res & Heq & Hj & Hreq & _).
  exists j, t'. unfold bind. rewrite Heq.
  destruct res as [resp | e]; [rewrite reversed_fields_trace |]; auto.
Qed.

Lemma gh_commits_requests_reference_witness :
  exists (j : nat) (t' : trace),
    snd (get_gh_commits
           "Kamdzy/get-tag/docs:main@https://ghe.example:8443/api/v3"
           gh_env []) = [] ++ t' /\
    (j <= 3)%nat /\
    requests t' =
      repeat
        (EvRequest
           "https://ghe.example:8443/api/v3/repos/Kamdzy/get-tag/commits?sha=main&path=docs")
        (S j).
Proof.
  apply (gh_commits_requests_reference full_reference gh_env []).
  reflexivity.
Defined.

(** X6. When what is left of the reference after the base and the branch
    are cut off holds no ['/'], [get_gh_commits] raises [ValueError]
    before anything is sent: the trace is unchanged. *)
Theorem gh_commits_without_slash (repository : string) (w : env) (t : trace) :
  contains_char "/" (commits_target repository) = false ->
  get_gh_commits repository w t = (Raise ValueError, t).
Proof.
  intros Hp. unfold get_gh_commits, commits_target in *.
  destruct (repository_base_parts repository _DEFAULT_GH_BASE)
    as (a & b & Hab).
  unfold _get_gh_repository_base in *. rewrite Hab in *. cbn [hd] in Hp.
  unfold bind at 1. cbn [lift unpack2].
  destruct (repository_branch_parts a) as (a' & br & Hbr).
  rewrite Hbr in *. cbn [hd] in Hp.
  unfold bind at 1. cbn [lift unpack2].
  unfold bind. cbn [lift]. now rewrite (repository_path_no_slash a' Hp).
Qed.

Lemma gh_commits_without_slash_witness :
  get_gh_commits "get-tag:main" gh_env [] = (Raise ValueError, []).
Proof. apply (gh_commits_without_slash "get-tag:main" gh_env []). reflexivity. Defined.

(** ** Responses that do not parse *)

(** A fetch answered at once: one diagnostic line, one request. *)
Lemma _urlopen_at_once (w : env) (t : trace) (r : response) (url : string) :
  answers_next w t r -> status r = 200 ->
  _urlopen url _RETRIES w t =
    (Ok r, t ++ [EvStderr "url" (JStr url); EvRequest url]).
Proof.
  intros Hn Hs. rewrite (_urlopen_success url _ w t r (Hn url) Hs).
  unfold announced. cbn [Nat.eqb _RETRIES]. now rewrite <- app_assoc.
Qed.

(** X7. A response that arrives with status 200 is never fetched
    again, whatever its body: [get_docker_tags] sends its single
    request and sleeps never.  A body that is an object without
    ["results"] raises [KeyError], and one whose ["results"] is [null]
    raises [TypeError]. *)
Theorem docker_tags_parse_failure_not_retried (repository : string)
    (w : env) (t : trace) (r : response) :
  repository <> ""%string ->
  answers_next w t r -> status r = 200 ->
  snd (get_docker_tags repository w t) =
    t ++ [EvStderr "url" (JStr (tags_url repository));
          EvRequest (tags_url repository)] /\
  (forall fields,
     body r = Some (JObj fields) -> lookup "results" fields = None ->
     fst (get_docker_tags repository w t) = Raise KeyError) /\
  (forall fields,
     body r = Some (JObj fields) -> lookup "results" fields = Some JNull ->
     fst (get_docker_tags repository w t) = Raise TypeError).
Proof.
  intros Hne Hn Hs. apply String.eqb_neq in Hne.
  unfold get_docker_tags. rewrite Hne. cbv zeta. fold (tags_url repository).
  unfold bind, read_json, lift. rewrite (_urlopen_at_once w t r _ Hn Hs).
  split; [now destruct (json_loads (body r)) | split].
  - intros fields Hb Hl. rewrite Hb. cbn. now rewrite Hl.
  - intros fields Hb Hl. rewrite Hb. cbn. now rewrite Hl.
Qed.

Lemma docker_tags_parse_failure_not_retried_witness :
  snd (get_docker_tags "library/alpine" no_results_env []) =
    [] ++ [EvStderr "url" (JStr (tags_url "library/alpine"));
           EvRequest (tags_url "library/alpine")] /\
  fst (get_docker_tags "library/alpine" no_results_env []) = Raise KeyError.
Proof.
  assert (Hne : "library/alpine"%string <> ""%string) by discriminate.
  destruct (docker_tags_parse_failure_not_retried "library/alpine"
              no_results_env []
              (mkResponse 200 (Some (JObj [("count"%string, JInt 0)])))
              Hne (fun _ => eq_refl) eq_refl)
    as (Htrace & Hkey & _).
  split; [exact Htrace | exact (Hkey _ eq_refl eq_refl)].
Defined.

(** ** Providers with a canonical latest value *)



(** ** Nothing to pick *)

Lemma py_index_empty {A} (i : Z) : @py_index A [] i = Raise IndexError.
Proof.
  unfold py_index. cbn [List.length Z.of_nat].
  destruct (i <? 0) eqn:E.
  - rewrite Z.add_0_r, E. reflexivity.
  - destruct (Z.ltb_spec i 0); [discriminate |].
    destruct (Z.leb_spec 0 i); [reflexivity | lia].
Qed.

(** X9. The list-then-pick-last providers raise [IndexError] when there
    is nothing to pick: [get_gh_tag], [get_gh_deployment] and
    [get_gh_commit] on an empty response list, [get_gh_release_1] when
    filtering leaves no release, for instance when every entry is a
    draft or a prerelease. *)
Theorem gh_latest_of_nothing (repository : string) (w : env) (t : trace)
    (r : response) (data : json) :
  answers_next w t r -> status r = 200 -> body r = Some data ->
  (data = JArr [] ->
   fst (get_gh_tag repository w t) = Raise IndexError /\
   fst (get_gh_deployment repository w t) = Raise IndexError /\
   (contains_char "/" (commits_target repository) = true ->
    fst (get_gh_commit repository w t) = Raise IndexError)) /\
  (releases_filtered_then_reversed data = Ok [] ->
   fst (get_gh_release_1 repository w t) = Raise IndexError).
Proof.
  intros Hn Hs Hb. split.
  - intros ->. split; [| split].
    + destruct (get_gh_tags_list repository w t r [] [] Hn Hs Hb eq_refl)
        as (t' & Heq).
      unfold get_gh_tag, bind. now rewrite Heq.
    + destruct (get_gh_deployments_list repository w t r [] [] Hn Hs Hb
                  eq_refl) as (t' & Heq).
      unfold get_gh_deployment, bind. now rewrite Heq.
    + intros Hp.
      destruct (get_gh_commits_list repository w t r [] [] Hn Hs Hb
                  eq_refl Hp) as (t' & Heq).
      unfold get_gh_commit, bind. now rewrite Heq.
  - intros Hnone.
    destruct (get_gh_releases_1_answered repository w t r data Hn Hs Hb)
      as (t' & Heq).
    unfold releases_filtered_then_reversed in Hnone.
    unfold get_gh_release_1, bind. rewrite Heq, py_reversed_iter.
    destruct (py_iter data) as [entries | e]; cbn [rbind] in *;
      [| discriminate].
    apply comprehension_rev in Hnone. now rewrite Hnone.
Qed.

Lemma gh_latest_of_nothing_witness :
  fst (get_gh_tag "Kamdzy/get-tag" empty_list_env []) = Raise IndexError /\
  fst (get_gh_commit "Kamdzy/get-tag" empty_list_env []) = Raise IndexError /\
  fst (get_gh_release_1 "Kamdzy/get-tag" empty_list_env []) = Raise IndexError.
Proof.
  destruct (gh_latest_of_nothing "Kamdzy/get-tag" empty_list_env []
              (mkResponse 200 (Some (JArr []))) (JArr [])
              (fun _ => eq_refl) eq_refl eq_refl) as [Hlist Hrel].
  destruct (Hlist eq_refl) as (Htag & _ & Hcommit).
  split; [exact Htag |]. split; [exact (Hcommit eq_refl) | exact (Hrel eq_refl)].
Defined.

(** X10. When every release of the package is yanked or has no files, in
    particular when the package has no release at all,
    [get_pip_versions_2] returns the empty list and [get_pip_version]
    raises [IndexError]. *)
Theorem pip_latest_of_nothing_listed (package : string) (w : env) (t : trace)
    (r : response) (data : json) (releases : list (string * json)) :
  answers_next w t r -> status r = 200 -> body r = Some data ->
  py_getitem data (JStr "releases") = Ok (JObj releases) ->
  release_table releases ->
  (forall v, In v (map fst releases) -> listed releases v = false) ->
  fst (get_pip_versions_2 package w t) = Ok [] /\
  fst (get_pip_version package w t) = Raise IndexError.
Proof.
  intros Hn Hs Hb Hr Htable Hnone.
  destruct (get_pip_versions_2_answered package w t r data Hn Hs Hb)
    as (t' & Heq).
  rewrite (pip_versions_of_table releases Htable data Hr) in Heq.
  assert (Hempty : listed_versions releases = []).
  { unfold listed_versions.
    replace (filter (listed releases) (map fst releases)) with (@nil string);
      [reflexivity |].
    symmetry. induction (map fst releases) as [| v vs IH]; [reflexivity |].
    cbn. rewrite (Hnone v) by now left.
    apply IH. intros x Hx. apply Hnone. now right. }
  rewrite Hempty in Heq. cbn [map] in Heq.
  split; [now rewrite Heq |].
  unfold get_pip_version, get_pip_version_2, bind. now rewrite Heq.
Qed.

Lemma yanked_release_table : release_table yanked_releases.
Proof.
  intros v val. cbn.
  destruct (String.eqb v "2.0.0"); intros H; inversion H; subst; cbn; eauto.
Qed.

Lemma pip_latest_of_nothing_listed_witness :
  fst (get_pip_versions_2 "demo" yanked_env []) = Ok [] /\
  fst (get_pip_version "demo" yanked_env []) = Raise IndexError.
Proof.
  apply (pip_latest_of_nothing_listed "demo" yanked_env []
           (mkResponse 200 (Some yanked_index)) yanked_index yanked_releases).
  - intros url. reflexivity.
  - reflexivity.
  - reflexivity.
  - reflexivity.
  - exact yanked_release_table.
  - intros v [<- | []]. reflexivity.
Defined.

(** ** Calendar *)

(** The keys of [_CR_COICES] are the six keywords. *)
Lemma cron_keywords_known (cron : string) :
  In cron cron_keywords <-> lookup cron _CR_COICES <> None.
Proof.
  unfold cron_keywords. cbn.
  repeat match goal with
         | |- context [String.eqb cron ?k] =>
             destruct (String.eqb_spec cron k) as [-> | ?]
         end;
    split; intros H; try discriminate; try tauto; try congruence;
    intuition congruence.
Qed.

(** X11. [get_cron_tag] never touches the network or the output: the
    trace is unchanged.  It returns a string exactly for the six
    keywords, the clock formatted with the keyword's format, and raises
    [KeyError] for every other granularity. *)
Theorem cron_tag_keywords (cron : string) (w : env) (t : trace) :
  snd (get_cron_tag cron w t) = t /\
  (In cron cron_keywords ->
   exists fmt, lookup cron _CR_COICES = Some fmt /\
               fst (get_cron_tag cron w t) = Ok (JStr (strftime_now w fmt))) /\
  (~ In cron cron_keywords -> fst (get_cron_tag cron w t) = Raise KeyError).
Proof.
  unfold get_cron_tag.
  pose proof (cron_keywords_known cron) as Hk.
  destruct (lookup cron _CR_COICES) as [fmt |].
  - split; [reflexivity |]. split.
    + intros _. now exists fmt.
    + intros Hn. exfalso. apply Hn, Hk. discriminate.
  - split; [reflexivity |]. split.
    + intros Hin. apply Hk in Hin. congruence.
    + reflexivity.
Qed.

Lemma cron_tag_keywords_witness :
  snd (get_cron_tag "weekly" exhaustion_env []) = [] /\
  exists fmt,
    lookup "weekly" _CR_COICES = Some fmt /\
    fst (get_cron_tag "weekly" exhaustion_env [])
      = Ok (JStr (strftime_now exhaustion_env fmt)).
Proof.
  destruct (cron_tag_keywords "weekly" exhaustion_env [])
    as (Htrace & Hknown & _).
  split; [exact Htrace |]. apply Hknown. cbn. tauto.
Defined.

(** ** Main *)

Lemma resolved_tag_active_flag (str_container : json -> string) (a : args) :
  resolved_tag str_container a =
    match active_flag a with
    | Some (Pip, x) => get_pip_version x
    | Some (Npm, x) => get_npm_version x
    | Some (Go, x) => get_go_version x
    | Some (GhCommit, x) => get_gh_commit x
    | Some (GhTag, x) => get_gh_tag x
    | Some (GhRelease, x) => get_gh_release x
    | Some (GhDeployment, x) => get_gh_deployment x
    | Some (GlCommit, x) => get_gl_commit str_container x
    | Some (GlTag, x) => get_gl_tag str_container x
    | Some (Cr, x) => get_cron_tag x
    | None => raise NotImplementedError
    end.
Proof.
  unfold resolved_tag, active_flag.
  repeat match goal with
         | |- context [selected ?f] => destruct (selected f)
         end; reflexivity.
Qed.

(** X12. On the namespace [parse_args] returned, [main] reads the
    provider flags in the order pip, npm, go, gh-commit, gh-tag,
    gh-release, gh-deployment, gl-commit, gl-tag, cr and stops at the
    first non-empty one: two namespaces with the same artifact
    repository whose flags before position [k] are all empty and whose
    flag [k] is the same non-empty string run identically, whatever the
    flags after [k] hold.  (Several non-empty flags reach [main] only
    through the [TAG_...] defaults, [parse_args] admitting one flag of
    the group on the command line.) *)
Theorem main_stops_at_first_active_flag (str_container : json -> string)
    (a a' : args) (k : nat) (w : env) (t : trace) :
  docker_tag a = docker_tag a' ->
  (forall i, (i < k)%nat ->
     selected (flag_at i a) = None /\ selected (flag_at i a') = None) ->
  selected (flag_at k a) <> None ->
  selected (flag_at k a) = selected (flag_at k a') ->
  main str_container a w t = main str_container a' w t.
Proof.
  intros Hd Hbefore Hact Heq.
  assert (Hres : resolved_tag str_container a = resolved_tag str_container a').
  { unfold resolved_tag.
    destruct k as [| [| [| [| [| [| [| [| [| [| k]]]]]]]]]];
      try (pose proof (Hbefore 0%nat ltac:(lia)) as [? ?]);
      try (pose proof (Hbefore 1%nat ltac:(lia)) as [? ?]);
      try (pose proof (Hbefore 2%nat ltac:(lia)) as [? ?]);
      try (pose proof (Hbefore 3%nat ltac:(lia)) as [? ?]);
      try (pose proof (Hbefore 4%nat ltac:(lia)) as [? ?]);
      try (pose proof (Hbefore 5%nat ltac:(lia)) as [? ?]);
      try (pose proof (Hbefore 6%nat ltac:(lia)) as [? ?]);
      try (pose proof (Hbefore 7%nat ltac:(lia)) as [? ?]);
      try (pose proof (Hbefore 8%nat ltac:(lia)) as [? ?]);
      try (pose proof (Hbefore 9%nat ltac:(lia)) as [? ?]);
      clear Hbefore; cbn [flag_at nth provider_flags] in *;
      repeat match goal with
             | H : selected _ = None |- _ => rewrite H; clear H
             end;
      try congruence;
      match type of Heq with
      | ?x = _ => rewrite <- Heq; destruct x; [reflexivity | congruence]
      end. }
  rewrite !main_eq, Hd. unfold bind.
  destruct (get_docker_tags (docker_tag a') w t) as [[tags | e] t1];
    [| reflexivity].
  now rewrite Hres.
Qed.

Lemma main_stops_at_first_active_flag_witness :
  main no_str
    (mkArgs "library/demo" (Some "demo"%string) (Some "lodash"%string)
       None None None None None None None (Some "daily"%string))
    (scenario_env "1.0.0") [] =
  main no_str (scenario_args "library/demo" "demo") (scenario_env "1.0.0") [].
Proof.
  apply (main_stops_at_first_active_flag no_str _ _ 0).
  - reflexivity.
  - intros i Hi. inversion Hi.
  - discriminate.
  - reflexivity.
Defined.



(** ** GitLab *)

Lemma ascii_digits_isdigit (s : string) :
  all_chars is_ascii_digit s = true -> all_chars is_digit s = true.
Proof.
  induction s as [| c s IH]; cbn; [reflexivity |].
  intros H. apply andb_true_iff in H as [Hc Hs].
  rewrite (IH Hs), andb_true_r. unfold is_digit. now rewrite Hc.
Qed.

Lemma ascii_digits_free_of (c : ascii) (s : string) :
  is_ascii_digit c = false -> all_chars is_ascii_digit s = true ->
  contains_char c s = false.
Proof.
  intros Hc. induction s as [| x s IH]; cbn; [reflexivity |].
  intros H. apply andb_true_iff in H as [Hx Hs].
  rewrite (IH Hs), orb_false_r.
  destruct (Ascii.eqb_spec x c) as [-> | ?]; [congruence | reflexivity].
Qed.

Lemma string_length_le_ltb (s : string) :
  (String.length s <= int_max_str_digits)%nat ->
  Nat.ltb int_max_str_digits (String.length s) = false.
Proof. intros H. now apply Nat.ltb_ge. Qed.

(** A reference that passes [isdigit] is converted on the spot. *)
Lemma _get_gl_repository_numeric (repository base : string) (w : env)
    (t : trace) :
  isdigit repository = true ->
  _get_gl_repository repository base w t =
    ((n <~ py_int repository ;; Ok (JInt n)), t).
Proof.
  intros H. unfold _get_gl_repository. rewrite H.
  unfold bind, lift, ret. now destruct (py_int repository).
Qed.

Lemma py_int_ascii_digits (s : string) :
  s <> ""%string -> all_chars is_ascii_digit s = true ->
  py_int s =
    if Nat.ltb int_max_str_digits (String.length s)
    then Raise ValueError else Ok (digits_value 0 s).
Proof.
  intros Hne Hd. unfold py_int. apply String.eqb_neq in Hne.
  now rewrite Hd, Hne.
Qed.

Lemma replace_char_free (c : ascii) (by_ s : string) :
  contains_char c by_ = false ->
  contains_char c (replace_char c by_ s) = false.
Proof.
  intros Hb. induction s as [| x s IH]; cbn; [reflexivity |].
  destruct (Ascii.eqb x c) eqn:E.
  - now rewrite contains_char_app, Hb, IH.
  - cbn. now rewrite E, IH.
Qed.

(** X15. A reference that does not pass [isdigit] is resolved by a fetch
    of the project endpoint, every ['/'] of the reference escaped as
    [%2F]: all requests go to that one URL, whose project part holds no
    ['/'], and on success the answer's ["id"] is returned. *)
Theorem gl_path_is_resolved_by_lookup (repository base : string) (w : env)
    (t : trace) :
  isdigit repository = false ->
  contains_char "/" (replace_char "/" "%2F" repository) = false /\
  exists (j : nat) (t' : trace),
    snd (_get_gl_repository repository base w t) = t ++ t' /\
    (j <= 3)%nat /\
    requests t' = repeat (EvRequest (gl_project_url base repository)) (S j) /\
    forall id, fst (_get_gl_repository repository base w t) = Ok id ->
      exists r data,
        net w (requests_made t + j) (gl_project_url base repository)
          = Responded r /\
        body r = Some data /\ py_getitem data (JStr "id") = Ok id.
Proof.
  intros H. split; [now apply replace_char_free |].
  unfold _get_gl_repository. rewrite H. cbv zeta.
  fold (gl_project_url base repository).
  destruct (_urlopen_spec (gl_project_url base repository) _RETRIES w t)
    as (j & t' & res & Heq & Hj & Hreq & _ & _ & Hres).
  exists j, t'. unfold bind, read_json, lift. rewrite Heq.
  destruct res as [r | e]; cbn [fst snd].
  - destruct Hres as [Hn _].
    destruct (body r) as [data |] eqn:Hb; cbn [json_loads fst snd].
    + repeat split; auto. intros id Hid. now exists r, data.
    + repeat split; auto. discriminate.
  - repeat split; auto. discriminate.
Qed.

Lemma gl_path_is_resolved_by_lookup_witness :
  contains_char "/" (replace_char "/" "%2F" "gitlab-org/gitlab") = false /\
  exists (j : nat) (t' : trace),
    snd (_get_gl_repository "gitlab-org/gitlab" "https://gitlab.com"
           gitlab_env []) = [] ++ t' /\
    (j <= 3)%nat /\
    requests t' =
      repeat (EvRequest "https://gitlab.com/api/v4/projects/gitlab-org%2Fgitlab")
             (S j) /\
    forall id,
      fst (_get_gl_repository "gitlab-org/gitlab" "https://gitlab.com"
             gitlab_env []) = Ok id ->
      exists r data,
        net gitlab_env (requests_made [] + j)
            (gl_project_url "https://gitlab.com" "gitlab-org/gitlab")
          = Responded r /\
        body r = Some data /\ py_getitem data (JStr "id") = Ok id.
Proof.
  apply (gl_path_is_resolved_by_lookup "gitlab-org/gitlab"
           "https://gitlab.com" gitlab_env []).
  reflexivity.
Defined.

(** X16. For a project id of ASCII digits under the default base,
    [get_gl_tags] and [get_gl_commits] never make the lookup request.
    With at most 4300 digits, and the endpoint answering at the first
    attempt, they send one request, to the endpoint of the id written
    in decimal without leading zeros, commits with an empty [ref_name],
    and return the names, respectively the ids, of the answer in
    reverse order.  With more digits [int] refuses the id: both raise
    [ValueError] before anything is sent. *)
Theorem gl_lists_of_numeric_project (str_container : json -> string)
    (repository : string) (w : env) (t : trace) (r : response)
    (entries vals : list json) :
  repository <> ""%string ->
  all_chars is_ascii_digit repository = true ->
  ((String.length repository <= int_max_str_digits)%nat ->
   answers_next w t r -> status r = 200 -> body r = Some (JArr entries) ->
   let project := py_str str_container (JInt (digits_value 0 repository)) in
   (mapR (fun entry => py_getitem entry (JStr "name")) entries = Ok vals ->
    get_gl_tags str_container repository w t =
      (Ok (rev vals),
       t ++ [EvStderr "url" (JStr (gl_tags_url _DEFAULT_GL_BASE project));
             EvRequest (gl_tags_url _DEFAULT_GL_BASE project)])) /\
   (mapR (fun entry => py_getitem entry (JStr "id")) entries = Ok vals ->
    get_gl_commits str_container repository w t =
      (Ok (rev vals),
       t ++ [EvStderr "url"
               (JStr (gl_commits_url _DEFAULT_GL_BASE project ""));
             EvRequest (gl_commits_url _DEFAULT_GL_BASE project "")]))) /\
  ((int_max_str_digits < String.length repository)%nat ->
   get_gl_tags str_container repository w t = (Raise ValueError, t) /\
   get_gl_commits str_container repository w t = (Raise ValueError, t)).
Proof.
  intros Hne Hd.
  assert (Hdigit : isdigit repository = true).
  { unfold isdigit. apply String.eqb_neq in Hne.
    now rewrite Hne, (ascii_digits_isdigit _ Hd). }
  assert (Hbase : contains_char _SEP_BASE repository = false)
    by now apply ascii_digits_free_of.
  assert (Hbranch : contains_char _SEP_BRANCH repository = false)
    by now apply ascii_digits_free_of.
  pose proof (_get_gl_repository_numeric repository _DEFAULT_GL_BASE w t
                Hdigit) as Hproj.
  rewrite (py_int_ascii_digits _ Hne Hd) in Hproj.
  split.
  - intros Hlen Hn Hs Hb project.
    rewrite (string_length_le_ltb _ Hlen) in Hproj. cbn [rbind] in Hproj.
    split; intros Hv.
    + unfold get_gl_tags, _get_gl_repository_base, _get_repository_base.
      rewrite Hbase. cbn [negb].
      rewrite (split_char_default _ _ _DEFAULT_GL_BASE Hbase).
      unfold bind at 1. cbn [lift unpack2].
      unfold bind at 1. rewrite Hproj. cbv zeta.
      fold project. fold (gl_tags_url _DEFAULT_GL_BASE project).
      unfold bind. rewrite (_urlopen_at_once w t r _ Hn Hs).
      now apply reversed_fields_list with (entries := entries).
    + unfold get_gl_commits, _get_gl_repository_base, _get_repository_base.
      rewrite Hbase. cbn [negb].
      rewrite (split_char_default _ _ _DEFAULT_GL_BASE Hbase).
      unfold bind at 1. cbn [lift unpack2].
      unfold _get_repository_branch. rewrite Hbranch. cbn [negb].
      rewrite (split_char_default _ _ _DEFAULT_BRANCH Hbranch).
      unfold bind at 1. cbn [lift unpack2].
      unfold bind at 1. rewrite Hproj. cbv zeta.
      fold project.
      fold (gl_commits_url _DEFAULT_GL_BASE project _DEFAULT_BRANCH).
      unfold bind. rewrite (_urlopen_at_once w t r _ Hn Hs).
      now apply reversed_fields_list with (entries := entries).
  - intros Hlen. apply Nat.ltb_lt in Hlen. rewrite Hlen in Hproj.
    cbn [rbind] in Hproj.
    split.
    + unfold get_gl_tags, _get_gl_repository_base, _get_repository_base.
      rewrite Hbase. cbn [negb].
      rewrite (split_char_default _ _ _DEFAULT_GL_BASE Hbase).
      unfold bind at 1. cbn [lift unpack2].
      unfold bind at 1. now rewrite Hproj.
    + unfold get_gl_commits, _get_gl_repository_base, _get_repository_base.
      rewrite Hbase. cbn [negb].
      rewrite (split_char_default _ _ _DEFAULT_GL_BASE Hbase).
      unfold bind at 1. cbn [lift unpack2].
      unfold _get_repository_branch. rewrite Hbranch. cbn [negb].
      rewrite (split_char_default _ _ _DEFAULT_BRANCH Hbranch).
      unfold bind at 1. cbn [lift unpack2].
      unfold bind at 1. now rewrite Hproj.
Qed.

Lemma gl_lists_of_numeric_project_witness :
  get_gl_tags no_str "0278964" gitlab_list_env [] =
    (Ok [JStr "v17.0.0"; JStr "v17.1.0"],
     [] ++ [EvStderr "url"
              (JStr "https://gitlab.com/api/v4/projects/278964/repository/tags?order_by=version");
            EvRequest
              "https://gitlab.com/api/v4/projects/278964/repository/tags?order_by=version"]) /\
  fst (get_gl_commits no_str "0278964" gitlab_list_env [])
    = Ok [JStr "0c1d"; JStr "f3a9"].
Proof.
  pose (entries :=
          [JObj [("name"%string, JStr "v17.1.0"); ("id"%string, JStr "f3a9")];
           JObj [("name"%string, JStr "v17.0.0"); ("id"%string, JStr "0c1d")]]).
  assert (Hne : "0278964"%string <> ""%string) by discriminate.
  assert (Hlen : (String.length "0278964" <= int_max_str_digits)%nat)
    by (apply Nat.leb_le; vm_compute; reflexivity).
  split.
  - destruct (gl_lists_of_numeric_project no_str "0278964" gitlab_list_env []
                (mkResponse 200 (Some (JArr entries))) entries
                [JStr "v17.1.0"; JStr "v17.0.0"] Hne eq_refl)
      as [Hshort _].
    destruct (Hshort Hlen (fun _ => eq_refl) eq_refl eq_refl) as [Htags _].
    exact (Htags eq_refl).
  - destruct (gl_lists_of_numeric_project no_str "0278964" gitlab_list_env []
                (mkResponse 200 (Some (JArr entries))) entries
                [JStr "f3a9"; JStr "0c1d"] Hne eq_refl)
      as [Hshort _].
    destruct (Hshort Hlen (fun _ => eq_refl) eq_refl eq_refl) as [_ Hcommits].
    now rewrite (Hcommits eq_refl).
Defined.

(** X17. For a path-form project under the default base, [get_gl_tags]
    makes two fetches in order: the project lookup, then the tag list of
    the id the lookup answered.  On two answers at the first attempt it
    returns the names of the second answer in reverse order. *)
Theorem gl_tags_resolve_then_list (str_container : json -> string)
    (repository : string) (w : env) (t : trace) (r1 r2 : response)
    (fields : list (string * json)) (id : json) (entries vals : list json) :
  isdigit repository = false ->
  contains_char _SEP_BASE repository = false ->
  answers_next w t r1 -> status r1 = 200 ->
  body r1 = Some (JObj fields) -> lookup "id" fields = Some id ->
  (forall url, net w (requests_made t + 1) url = Responded r2) ->
  status r2 = 200 -> body r2 = Some (JArr entries) ->
  mapR (fun entry => py_getitem entry (JStr "name")) entries = Ok vals ->
  let lookup_url := gl_project_url _DEFAULT_GL_BASE repository in
  let list_url := gl_tags_url _DEFAULT_GL_BASE (py_str str_container id) in
  get_gl_tags str_container repository w t =
    (Ok (rev vals),
     t ++ [EvStderr "url" (JStr lookup_url); EvRequest lookup_url;
           EvStderr "url" (JStr list_url); EvRequest list_url]).
Proof.
  intros Hd Hbase Hn1 Hs1 Hb1 Hid Hn2 Hs2 Hb2 Hv lookup_url list_url.
  unfold get_gl_tags, _get_gl_repository_base, _get_repository_base.
  rewrite Hbase. cbn [negb].
  rewrite (split_char_default _ _ _DEFAULT_GL_BASE Hbase).
  unfold bind at 1. cbn [lift unpack2].
  assert (Hproj : _get_gl_repository repository _DEFAULT_GL_BASE w t =
                  (Ok id, t ++ [EvStderr "url" (JStr lookup_url);
                                EvRequest lookup_url])).
  { unfold _get_gl_repository. rewrite Hd. cbv zeta.
    fold (gl_project_url _DEFAULT_GL_BASE repository). fold lookup_url.
    unfold bind, read_json, lift.
    rewrite (_urlopen_at_once w t r1 _ Hn1 Hs1), Hb1. cbn. now rewrite Hid. }
  unfold bind at 1. rewrite Hproj. cbv zeta.
  fold (gl_tags_url _DEFAULT_GL_BASE (py_str str_container id)). fold list_url.
  set (t1 := t ++ [EvStderr "url" (JStr lookup_url); EvRequest lookup_url]).
  assert (Hn : answers_next w t1 r2).
  { intros url. subst t1. rewrite requests_made_app. cbn. apply Hn2. }
  unfold bind. rewrite (_urlopen_at_once w t1 r2 _ Hn Hs2).
  rewrite (reversed_fields_list "name" r2 entries vals _ _ Hb2 Hv).
  subst t1. now rewrite <- app_assoc.
Qed.

Lemma gl_tags_resolve_then_list_witness :
  get_gl_tags no_str "gitlab-org/gitlab" gitlab_env [] =
    (Ok [JStr "v17.0.0"; JStr "v17.1.0"],
     [] ++ [EvStderr "url"
              (JStr "https://gitlab.com/api/v4/projects/gitlab-org%2Fgitlab");
            EvRequest "https://gitlab.com/api/v4/projects/gitlab-org%2Fgitlab";
            EvStderr "url"
              (JStr "https://gitlab.com/api/v4/projects/278964/repository/tags?order_by=version");
            EvRequest
              "https://gitlab.com/api/v4/projects/278964/repository/tags?order_by=version"]).
Proof.
  apply (gl_tags_resolve_then_list no_str "gitlab-org/gitlab" gitlab_env []
           (mkResponse 200 (Some
              (JObj [("id"%string, JInt 278964);
                     ("path_with_namespace"%string,
                      JStr "gitlab-org/gitlab")])))
           (mkResponse 200 (Some
              (JArr [JObj [("name"%string, JStr "v17.1.0")];
                     JObj [("name"%string, JStr "v17.0.0")]])))
           [("id"%string, JInt 278964);
            ("path_with_namespace"%string, JStr "gitlab-org/gitlab")]
           (JInt 278964)
           [JObj [("name"%string, JStr "v17.1.0")];
            JObj [("name"%string, JStr "v17.0.0")]]
           [JStr "v17.1.0"; JStr "v17.0.0"]);
    try reflexivity; intros url; reflexivity.
Defined.

(** ** Ties in the package index *)

Lemma string_ltb_irrefl (s : string) : String.ltb s s = false.
Proof.
  unfold String.ltb. pose proof (String.compare_antisym s s) as H.
  destruct (String.compare s s); try reflexivity; discriminate.
Qed.

Lemma insert_version_stable (time_of : string -> string) (ts x : string)
    (l : list string) :
  uploaded_at time_of ts (insert_version time_of x l)
    = uploaded_at time_of ts (x :: l).
Proof.
  unfold uploaded_at. induction l as [| y l IH]; [reflexivity |].
  cbn [insert_version].
  destruct (String.ltb (time_of y) (time_of x)) eqn:Hlt; [| reflexivity].
  cbn [filter] in *. rewrite IH.
  destruct (String.eqb_spec (time_of y) ts) as [Hy |]; [| reflexivity].
  destruct (String.eqb_spec (time_of x) ts) as [Hx |]; [| reflexivity].
  rewrite Hy, Hx, string_ltb_irrefl in Hlt. discriminate.
Qed.

Lemma sort_versions_stable (time_of : string -> string) (ts : string)
    (l : list string) :
  uploaded_at time_of ts (sort_versions time_of l) = uploaded_at time_of ts l.
Proof.
  induction l as [| x l IH]; [reflexivity |].
  cbn [sort_versions]. rewrite insert_version_stable.
  unfold uploaded_at in *. cbn [filter]. now rewrite IH.
Qed.

(** X18. The sort of [get_pip_versions_2] is stable: releases uploaded
    at the same instant come out in the order the index lists them, so
    among the releases sharing the latest upload time the one listed
    last is the latest. *)
Theorem pip_versions_ties_keep_index_order (package : string) (w : env)
    (t : trace) (r : response) (data : json)
    (releases : list (string * json)) :
  answers_next w t r -> status r = 200 -> body r = Some data ->
  py_getitem data (JStr "releases") = Ok (JObj releases) ->
  release_table releases ->
  exists versions,
    fst (get_pip_versions_2 package w t) = Ok (map JStr versions) /\
    forall ts,
      uploaded_at (upload_time releases) ts versions =
      uploaded_at (upload_time releases) ts
        (filter (listed releases) (map fst releases)).
Proof.
  intros Hn Hs Hb Hr Htable.
  destruct (get_pip_versions_2_answered package w t r data Hn Hs Hb)
    as (t' & Heq).
  rewrite (pip_versions_of_table releases Htable data Hr) in Heq.
  exists (listed_versions releases). split; [now rewrite Heq |].
  intros ts. apply sort_versions_stable.
Qed.

Lemma tied_release_table : release_table tied_releases.
Proof.
  intros v val. cbn.
  repeat match goal with
         | |- context [String.eqb v ?k] => destruct (String.eqb v k)
         end;
    intros H; inversion H; subst; cbn; eauto.
Qed.

Lemma pip_versions_ties_keep_index_order_witness :
  exists versions,
    fst (get_pip_versions_2 "demo" tied_env []) = Ok (map JStr versions) /\
    forall ts,
      uploaded_at (upload_time tied_releases) ts versions =
      uploaded_at (upload_time tied_releases) ts
        (filter (listed tied_releases) (map fst tied_releases)).
Proof.
  apply (pip_versions_ties_keep_index_order "demo" tied_env []
           (mkResponse 200 (Some tied_index)) tied_index tied_releases).
  - intros url. reflexivity.
  - reflexivity.
  - reflexivity.
  - reflexivity.
  - exact tied_release_table.
Defined.

(** The tie of the sample index resolved: the release listed last among
    the two uploaded together is the latest. *)
Example tied_latest :
  fst (get_pip_versions_2 "demo" tied_env [])
    = Ok [JStr "0.9.0"; JStr "1.0.0.post1"; JStr "1.0.0"] /\
  fst (get_pip_version "demo" tied_env []) = Ok (JStr "1.0.0").
Proof. split; reflexivity. Qed.

(** ** Nothing published yet *)

(** X19. With the empty artifact repository nothing counts as published:
    whenever the selected provider returns an identifier, [main] prints
    it, and the tag listing has sent no request. *)
Theorem main_prints_when_nothing_published (str_container : json -> string)
    (a : args) (w : env) (t t2 : trace) (tag : json) :
  docker_tag a = ""%string ->
  resolved_tag str_container a w t = (Ok tag, t2) ->
  main str_container a w t =
    (Ok tt, t2 ++ [EvStdout ("tag=" +++ py_str str_container tag)]).
Proof.
  intros Hd Htag. rewrite main_eq, Hd. unfold bind.
  cbn [get_docker_tags String.eqb ret]. now rewrite Htag.
Qed.

Lemma main_prints_when_nothing_published_witness :
  main no_str (scenario_args "" "demo") (scenario_env "1.1.0") [] =
    (Ok tt,
     [EvStderr "url" (JStr "https://pypi.org/pypi/demo/json");
      EvRequest "https://pypi.org/pypi/demo/json"]
     ++ [EvStdout ("tag=" +++ py_str no_str (JStr "1.1.0"))]).
Proof.
  apply (main_prints_when_nothing_published no_str (scenario_args "" "demo")
           (scenario_env "1.1.0") []); reflexivity.
Defined.

(** X20. On a parsed namespace whose first active flag is [cr] and
    whose artifact repository is empty, [main] runs without any request,
    sleep or diagnostic.  For one of the six keywords its whole effect
    is the single [print] of [tag=] and the formatted clock.  Any other
    granularity, which [parse_args] turns down on the command line and
    lets through only as the [TAG_CR] default, makes [main] raise
    [KeyError] and leave the trace as it was. *)
Theorem main_calendar_offline (str_container : json -> string) (a : args)
    (granularity : string) (w : env) (t : trace) :
  docker_tag a = ""%string ->
  active_flag a = Some (Cr, granularity) ->
  (In granularity cron_keywords ->
   exists fmt,
     lookup granularity _CR_COICES = Some fmt /\
     main str_container a w t =
       (Ok tt, t ++ [EvStdout ("tag=" +++ strftime_now w fmt)])) /\
  (~ In granularity cron_keywords ->
   main str_container a w t = (Raise KeyError, t)).
Proof.
  intros Hd Hf. rewrite main_eq, Hd, resolved_tag_active_flag, Hf.
  unfold bind. cbn [get_docker_tags String.eqb ret].
  pose proof (cron_keywords_known granularity) as Hk.
  unfold get_cron_tag.
  destruct (lookup granularity _CR_COICES) as [fmt |].
  - split.
    + intros _. exists fmt. split; [reflexivity |].
      unfold bind, now_strftime, ret. reflexivity.
    + intros Hn. exfalso. apply Hn, Hk. discriminate.
  - split.
    + intros Hin. apply Hk in Hin. congruence.
    + reflexivity.
Qed.

Lemma main_calendar_offline_witness :
  exists fmt,
    lookup "daily" _CR_COICES = Some fmt /\
    main no_str (cron_args "" "daily") exhaustion_env [] =
      (Ok tt, [] ++ [EvStdout ("tag=" +++ strftime_now exhaustion_env fmt)]).
Proof.
  destruct (main_calendar_offline no_str (cron_args "" "daily") "daily"
              exhaustion_env [] eq_refl eq_refl) as [Hknown _].
  apply Hknown. cbn. tauto.
Defined.
